(** * github-changelog: commit classification, change resolution and
      severity formatting

    A shallow embedding of [changelog/__init__.py] and the proofs of its
    specification.

    Conventions of the embedding.
    - A Python [str] is a [string]; a character is an [ascii], read as a code
      point below 256.
    - A compiled pattern is run by a backtracking matcher with Python's
      greedy priority ([Regex.run]); the four patterns of the program are
      values of [Regex.t].
    - A raised exception is a value of [exn]; a function that can raise
      returns a [result] and sequencing is [let*].
    - [requests.get] is a field of a [Network]: a function of the URL that
      gives a status code and the decoded JSON payload, typed per endpoint
      with the shape the GitHub REST API documents for it. The remote is
      taken not to change during one run.
    - The loop that follows a chain of tag objects has no bound in the
      program; it is run with a number of iterations allowed, and [Diverge]
      is the outcome when they are used up. *)

From Stdlib Require Import ZArith Ascii String DecimalString.
From Stdlib Require DecimalZ DecimalPos.
From stdpp Require Import gmap strings list fin_maps.

Local Open Scope Z_scope.
Set Warnings "-clear-no-such-hyp".

(** ** Strings *)

Module Str.

(** [all p s]: every character of [s] satisfies [p]. *)
Fixpoint all (p : ascii → bool) (s : string) : bool :=
  match s with
  | EmptyString => true
  | String c s' => p c && all p s'
  end.

(** [strip l s]: [s] without its prefix [l], when [l] is a prefix. *)
Fixpoint strip (l s : string) : option string :=
  match l, s with
  | EmptyString, _ => Some s
  | String a l', String b s' => if Ascii.eqb a b then strip l' s' else None
  | String _ _, EmptyString => None
  end.

(** [stops p s]: [s] is empty or starts with a character outside [p]. *)
Definition stops (p : ascii → bool) (s : string) : bool :=
  match s with
  | EmptyString => true
  | String c _ => negb (p c)
  end.

(** Python's [sep.join(l)]. *)
Definition join (sep : string) (l : list string) : string :=
  String.concat sep l.

(** Python's [str(n)] for an [int]. *)
Definition of_int (n : Z) : string := NilZero.string_of_int (Z.to_int n).

End Str.

(** ** Regular expressions *)

Module Regex.

(** Character classes of the program's patterns. *)
Inductive cls := Digit | Dot | Space.

(** [[0-9]], [.] (without DOTALL: anything but a line feed) and [\s]
    (for code points below 256). *)
Definition mem (c : cls) (a : ascii) : bool :=
  match c with
  | Digit => (48 <=? nat_of_ascii a)%nat && (nat_of_ascii a <=? 57)%nat
  | Dot => negb (Ascii.eqb a "010")
  | Space =>
      let n := nat_of_ascii a in
      ((9 <=? n)%nat && (n <=? 13)%nat) || ((28 <=? n)%nat && (n <=? 32)%nat)
      || (n =? 133)%nat || (n =? 160)%nat
  end.

(** One element of a pattern: a literal, a greedy repetition (star or plus)
    of a class (in a capture group when [capture] is set), or an optional
    character of a class. *)
Inductive item :=
| Lit (l : string)
| Rep (c : cls) (least : nat) (capture : bool)
| Opt (c : cls).

(** A pattern [^body], compiled with or without [re.MULTILINE]. *)
Record t := Compile { body : list item; multiline : bool }.

(** Greedy repetition with backtracking: the longest run of [p] is tried
    first, then shorter ones; [k] gets the run and what follows it. *)
Fixpoint greedy {A} (p : ascii → bool) (k : string → string → option A)
    (s : string) : option A :=
  match s with
  | String c s' =>
      if p c then
        match greedy p (λ m r, k (String c m) r) s' with
        | Some a => Some a
        | None => k EmptyString s
        end
      else k EmptyString s
  | EmptyString => k EmptyString s
  end.

(** What follows a repetition that matched [m]: the repetition must have
    its least length, the rest of the pattern [continue] must match, and
    [m] is one more group when the repetition is captured. *)
Definition after_rep (least : nat) (capture : bool)
    (continue : string → option (list string)) (m rest : string)
    : option (list string) :=
  if (least <=? String.length m)%nat then
    match continue rest with
    | Some g => Some (if capture then m :: g else g)
    | None => None
    end
  else None.

(** [run r s]: the groups of the first successful way to match [r] at the
    start of [s], in the order of their opening parentheses. *)
Fixpoint run (r : list item) (s : string) : option (list string) :=
  match r with
  | [] => Some []
  | Lit l :: r' =>
      match Str.strip l s with
      | Some s' => run r' s'
      | None => None
      end
  | Rep c least capture :: r' =>
      greedy (mem c) (after_rep least capture (run r')) s
  | Opt c :: r' =>
      match s with
      | String a s' =>
          if mem c a then
            match run r' s' with
            | Some g => Some g
            | None => run r' s
            end
          else run r' s
      | EmptyString => run r' s
      end
  end.

(** [pattern.match(s)]: the match starts at index 0, where [^] holds. *)
Definition re_match (r : t) (s : string) : option (list string) :=
  run (body r) s.

(** [scan r s first after_lf]: try every start index from left to right; [^]
    holds at index 0 and, with MULTILINE, just after a line feed. *)
Fixpoint scan (r : t) (s : string) (first after_lf : bool)
    : option (list string) :=
  match (if first || (multiline r && after_lf) then run (body r) s else None) with
  | Some g => Some g
  | None =>
      match s with
      | EmptyString => None
      | String c s' => scan r s' false (Ascii.eqb c "010")
      end
  end.

(** [pattern.search(s)]. *)
Definition search (r : t) (s : string) : option (list string) :=
  scan r s true false.

End Regex.


(** ** Constants and data model *)

(** A line feed, and the double line break of a merge commit. *)
Definition LF : string := String "010" EmptyString.
Definition LFLF : string := String "010" (String "010" EmptyString).

Definition DEFAULT_BRANCH : string := "main".
Definition PUBLIC_GITHUB_URL : string := "https://github.com".
Definition PUBLIC_GITHUB_API_URL : string := "https://api.github.com".

Record GitHubConfig := {
  base_url : string;
  api_url : string;
  headers : gmap string string
}.

Record Commit := { sha : string; message : string }.
Record PullRequest := { number : string; title : string }.
Record PullRequestDetails := {
  body : option string;
  labels : option (list string)
}.
Record ExtendedPullRequest := { pr : PullRequest; details : PullRequestDetails }.

(** Caret, [Merge pull request #], group 1: one or more of [0-9], then
    [ from ], any run of [.], two line feeds, group 2: any run of [.]. *)
Definition MERGE_PR_RE : Regex.t :=
  Regex.Compile
    [Regex.Lit "Merge pull request #"; Regex.Rep Regex.Digit 1 true;
     Regex.Lit " from "; Regex.Rep Regex.Dot 0 false;
     Regex.Lit LFLF; Regex.Rep Regex.Dot 0 true]
    false.

(** As [MERGE_PR_RE], with [/release/] and a second run of [.] before the
    two line feeds. *)
Definition MERGE_RELEASE_PR_RE : Regex.t :=
  Regex.Compile
    [Regex.Lit "Merge pull request #"; Regex.Rep Regex.Digit 1 true;
     Regex.Lit " from "; Regex.Rep Regex.Dot 0 false;
     Regex.Lit "/release/"; Regex.Rep Regex.Dot 0 false;
     Regex.Lit LFLF; Regex.Rep Regex.Dot 0 true]
    false.

(** Caret, group 1: any run of [.], then a space and [(#], group 2: one or
    more of [0-9], a closing parenthesis, any run of [.]. *)
Definition SQUASH_PR_RE : Regex.t :=
  Regex.Compile
    [Regex.Rep Regex.Dot 0 true; Regex.Lit " (#";
     Regex.Rep Regex.Digit 1 true; Regex.Lit ")"; Regex.Rep Regex.Dot 0 false]
    false.

(** Caret, [CHANGELOG:], an optional [\s], group 1: any run of [.];
    compiled with [re.MULTILINE]. *)
Definition CHANGELOG_RE : Regex.t :=
  Regex.Compile
    [Regex.Lit "CHANGELOG:"; Regex.Opt Regex.Space; Regex.Rep Regex.Dot 0 true]
    true.

Definition LABEL_LEVELS : gmap string Z :=
  list_to_map
    [("patch", 3); ("hotfix", 3); ("fix", 3); ("minor", 2); ("feature", 2);
     ("breaking", 1); ("major", 1)].

Definition CHANGELOG_LEVEL_MESSAGE : gmap Z string :=
  list_to_map [(1, "MAJOR RELEASE"); (2, "MINOR RELEASE"); (3, "PATCH RELEASE")].

(** ** Exceptions *)

Inductive exn :=
| GitHubError (msg : string)
| Exception (msg : string)
| HTTPError (status : Z)
| KeyError (key : string)
| IndexError
| ValueError
| TypeError.

(** The outcome of a call: a value, a raised exception, or no outcome within
    the iterations allowed to the one unbounded loop of the program. *)
Inductive result (A : Type) :=
| Ok (a : A)
| Raise (e : exn)
| Diverge.
Arguments Ok {A} a.
Arguments Raise {A} e.
Arguments Diverge {A}.

Definition bind {A B} (m : result A) (f : A → result B) : result B :=
  match m with
  | Ok a => f a
  | Raise e => Raise e
  | Diverge => Diverge
  end.

Notation "'let*' x ':=' m 'in' f" := (bind m (λ x, f))
  (at level 10, x name, m at level 200, f at level 200).

(** A [for] loop over [l] that updates [st] and may raise. *)
Fixpoint for_each {S A} (step : S → A → result S) (l : list A) (st : S)
    : result S :=
  match l with
  | [] => Ok st
  | x :: l' => let* st' := step st x in for_each step l' st'
  end.

(** A list comprehension [[f(x) for x in l]] whose [f] may raise. *)
Fixpoint comprehension {A B} (f : A → result B) (l : list A) : result (list B) :=
  match l with
  | [] => Ok []
  | x :: l' => let* y := f x in let* ys := comprehension f l' in Ok (y :: ys)
  end.

(** Truth value of an optional object ([None] is false, a match object or a
    named tuple is true). *)
Definition truthy {A} (o : option A) : bool :=
  match o with
  | Some _ => true
  | None => false
  end.

(** ** The remote API *)

Record Response (A : Type) := { status_code : Z; json : A }.
Arguments status_code {A} _.
Arguments json {A} _.

(** [git/refs/tags/{tag}] and tag objects. *)
Record GitObject := { obj_type : string; obj_sha : string; obj_url : string }.
Record RefJson := { ref_message : option string; ref_object : option GitObject }.

(** [commits?sha={branch}]: a list of commits, or an error document. *)
Record CommitRef := { cr_sha : string }.
Inductive CommitsJson :=
| CommitList (l : list CommitRef)
| CommitsError (message : option string).

(** [tags] *)
Record TagJson := { tag_name : string }.

(** [compare/{from}...{to}] *)
Record CommitBody := { cb_message : string }.
Record CommitJson := { cj_sha : string; cj_commit : CommitBody }.
Record CompareJson := {
  cmp_message : option string;
  cmp_commits : option (list CommitJson)
}.

(** [pulls/{number}] *)
Record LabelJson := { label_name : string }.
Record PullJson := { pull_body : option string; pull_labels : list LabelJson }.

(** [commits/{sha}/pulls] *)
Record PullRef := { pull_number : Z; pull_title : string }.

(** What the program reads from outside: the process environment and
    [requests.get], one field per endpoint, each a function of the URL (and
    of the query parameter and headers passed). *)
Record Network := {
  environ : string → option string;
  get_ref : string → gmap string string → Response RefJson;
  get_commits : string → option string → gmap string string → Response CommitsJson;
  get_tags : string → gmap string string → Response (list TagJson);
  get_compare : string → gmap string string → Response CompareJson;
  get_pull : string → gmap string string → Response PullJson;
  get_commit_pulls : string → gmap string string → Response (list PullRef)
}.

(** [d[key]] on a document whose key may be absent. *)
Definition getitem {A} (key : string) (o : option A) : result A :=
  match o with
  | Some a => Ok a
  | None => Raise (KeyError key)
  end.

(** [response.raise_for_status()] *)
Definition raise_for_status {A} (response : Response A) : result unit :=
  if (400 <=? status_code response) && (status_code response <? 600)
  then Raise (HTTPError (status_code response))
  else Ok tt.

(** ** The program *)

Section Program.

Variable net : Network.

Definition get_github_config (github_base_url github_api_url : string)
    (token : option string) : GitHubConfig :=
  let token :=
    match token with
    | None => environ net "GITHUB_API_TOKEN"
    | Some _ => token
    end in
  let headers : gmap string string := ∅ in
  let headers :=
    match token with
    | Some t => <["Authorization" := "token " +:+ t]> headers
    | None => headers
    end in
  {| base_url := github_base_url; api_url := github_api_url; headers := headers |}.

(** The [while] loop of [get_commit_for_tag], run for at most [fuel]
    iterations. It is entered at least once, since [tag_json] starts empty. *)
Fixpoint get_commit_for_tag_loop (fuel : nat) (github_config : GitHubConfig)
    (tag tag_url : string) : result string :=
  match fuel with
  | O => Diverge
  | S fuel' =>
      let tag_response := get_ref net tag_url (headers github_config) in
      let tag_json := json tag_response in
      if negb (status_code tag_response =? 200) then
        let* msg := getitem "message" (ref_message tag_json) in
        Raise (GitHubError ("Unable to get tag " +:+ tag +:+ ". " +:+ msg))
      else
        let* object := getitem "object" (ref_object tag_json) in
        let tag_url :=
          if String.eqb (obj_type object) "tag" then obj_url object else tag_url in
        if negb (String.eqb (obj_type object) "commit")
        then get_commit_for_tag_loop fuel' github_config tag tag_url
        else Ok (obj_sha object)
  end.

Definition get_commit_for_tag (fuel : nat) (github_config : GitHubConfig)
    (owner repo tag : string) : result string :=
  let tag_url :=
    Str.join "/"
      [api_url github_config; "repos"; owner; repo; "git"; "refs"; "tags"; tag] in
  get_commit_for_tag_loop fuel github_config tag tag_url.

Definition get_last_commit (github_config : GitHubConfig) (owner repo : string)
    (branch : option string) : result string :=
  let commits_url :=
    Str.join "/" [api_url github_config; "repos"; owner; repo; "commits"] in
  let commits_response :=
    get_commits net commits_url branch (headers github_config) in
  let commits_json := json commits_response in
  if negb (status_code commits_response =? 200) then
    let* msg :=
      match commits_json with
      | CommitsError m => getitem "message" m
      | CommitList _ => Raise TypeError
      end in
    Raise (GitHubError ("Unable to get commits. " +:+ msg))
  else
    match commits_json with
    | CommitList (c :: _) => Ok (cr_sha c)
    | CommitList [] => Raise IndexError
    | CommitsError _ => Raise (KeyError "0")
    end.

Definition get_last_tag (github_config : GitHubConfig) (owner repo : string)
    : result string :=
  let tags_url := Str.join "/" [api_url github_config; "repos"; owner; repo; "tags"] in
  let tags_response := get_tags net tags_url (headers github_config) in
  let* _ := raise_for_status tags_response in
  match json tags_response with
  | t :: _ => Ok (tag_name t)
  | [] => Raise IndexError
  end.

Definition get_commits_between (github_config : GitHubConfig)
    (owner repo first_commit last_commit : string) : result (list Commit) :=
  let commits_url :=
    Str.join "/"
      [api_url github_config; "repos"; owner; repo; "compare";
       first_commit +:+ "..." +:+ last_commit] in
  let commits_response := get_compare net commits_url (headers github_config) in
  let commits_json := json commits_response in
  if negb (status_code commits_response =? 200) then
    let* msg := getitem "message" (cmp_message commits_json) in
    Raise (GitHubError ("Unable to get commits between " +:+ first_commit
                        +:+ " and " +:+ last_commit +:+ ". " +:+ msg))
  else
    match cmp_commits commits_json with
    | None =>
        Raise (GitHubError ("Commits not found between " +:+ first_commit
                            +:+ " and " +:+ last_commit +:+ "."))
    | Some cs =>
        Ok ((λ c, {| sha := cj_sha c; message := cb_message (cj_commit c) |}) <$> cs)
    end.

(** On a status other than 200 the message is read from the response object
    itself, which has no subscript: that raises [TypeError] before the
    [GitHubError] is built. *)
Definition get_pr_details (github_config : GitHubConfig)
    (owner repo pr_number : string) : result PullRequestDetails :=
  let pr_url :=
    Str.join "/" [api_url github_config; "repos"; owner; repo; "pulls"; pr_number] in
  let pr_response := get_pull net pr_url (headers github_config) in
  let pr_json := json pr_response in
  if negb (status_code pr_response =? 200) then Raise TypeError
  else
    let labels := label_name <$> pull_labels pr_json in
    Ok {| body := pull_body pr_json; labels := Some labels |}.

Definition get_pr_for_commit (github_config : GitHubConfig)
    (owner repo commit_sha : string) : result (option PullRequest) :=
  let search_url :=
    Str.join "/"
      [api_url github_config; "repos"; owner; repo; "commits"; commit_sha; "pulls"] in
  let response := get_commit_pulls net search_url (headers github_config) in
  if negb (status_code response =? 200) then Ok None
  else
    let pulls := json response in
    match pulls with
    | [] => Ok None
    | pr :: _ =>
        Ok (Some {| number := Str.of_int (pull_number pr); title := pull_title pr |})
    end.

End Program.

(** The bare [except] turns a missing match into [None]. *)
Definition extract_changelog (pr_body : option string) : option string :=
  match pr_body with
  | None => None
  | Some pr_body =>
      match Regex.search CHANGELOG_RE pr_body with
      | Some [changelog] => Some changelog
      | _ => None
      end
  end.

(** The result is the match object of the first pattern that matches. *)
Definition is_pr (message : string) : option (list string) :=
  match Regex.search MERGE_PR_RE message with
  | Some m => Some m
  | None => Regex.search SQUASH_PR_RE message
  end.

Definition is_release_merge (message : string) : option (list string) :=
  Regex.search MERGE_RELEASE_PR_RE message.

Definition extract_pr (message : string) : result PullRequest :=
  let merge_match := Regex.re_match MERGE_PR_RE message in
  let squash_match := Regex.re_match SQUASH_PR_RE message in
  match merge_match with
  | Some groups =>
      match groups with
      | [number; title] => Ok {| number := number; title := title |}
      | _ => Raise ValueError
      end
  | None =>
      match squash_match with
      | Some groups =>
          match groups with
          | [title; number] => Ok {| number := number; title := title |}
          | _ => Raise ValueError
          end
      | None => Raise (Exception ("Commit isn't a PR merge, " +:+ message))
      end
  end.

(** [str(x)] for an optional string: [None] prints as its name. *)
Definition str_of_optional (x : option string) : string :=
  match x with
  | Some s => s
  | None => "None"
  end.

Section Changes.

Variable net : Network.

(** The body of the loop over [commits_between]; [st] holds [prs] and
    [processed_pr_numbers]. *)
Definition fetch_changes_step (github_config : GitHubConfig)
    (owner repo : string) (ignore_release_merge : bool)
    (st : list PullRequest * gset string) (commit : Commit)
    : result (list PullRequest * gset string) :=
  let '(prs, processed_pr_numbers) := st in
  let add (pr : option PullRequest) :=
    match pr with
    | Some p =>
        if decide (number p ∈ processed_pr_numbers) then st
        else (prs ++ [p], processed_pr_numbers ∪ {[number p]})
    | None => st
    end in
  if truthy (is_pr (message commit)) then
    if ignore_release_merge && truthy (is_release_merge (message commit))
    then Ok st
    else
      let* pr := extract_pr (message commit) in
      Ok (add (Some pr))
  else
    let* pr := get_pr_for_commit net github_config owner repo (sha commit) in
    Ok (add pr).

(** Lines 288 to 322: the walk over the commits, the details, the
    consistency check and the reversal. *)
Definition fetch_changes_walk (github_config : GitHubConfig)
    (owner repo : string) (branch : option string) (ignore_release_merge : bool)
    (commits_between : list Commit) : result (list ExtendedPullRequest) :=
  let* st :=
    for_each (fetch_changes_step github_config owner repo ignore_release_merge)
      commits_between ([], ∅) in
  let prs := st.1 in
  let* extended_prs :=
    comprehension
      (λ pr,
         let* d := get_pr_details net github_config owner repo (number pr) in
         Ok {| pr := pr; details := d |})
      prs in
  if (length extended_prs =? 0)%nat && (0 <? length commits_between)%nat then
    Raise (Exception ("Lots of commits and no PRs on branch "
                      +:+ str_of_optional branch))
  else Ok (reverse extended_prs).

(** Lines 269 to 285: the two endpoints and the commits between them. *)
Definition fetch_changes_commits (fuel : nat) (github_config : GitHubConfig)
    (owner repo : string) (previous_tag current_tag branch : option string)
    : result (list Commit) :=
  let* previous_tag :=
    match previous_tag with
    | None => get_last_tag net github_config owner repo
    | Some t => Ok t
    end in
  let* previous_commit :=
    get_commit_for_tag net fuel github_config owner repo previous_tag in
  let* current_commit :=
    match current_tag with
    | Some t => get_commit_for_tag net fuel github_config owner repo t
    | None => get_last_commit net github_config owner repo branch
    end in
  get_commits_between net github_config owner repo previous_commit current_commit.

Definition fetch_changes (fuel : nat) (github_config : GitHubConfig)
    (owner repo : string) (previous_tag current_tag branch : option string)
    (ignore_release_merge : bool) : result (list ExtendedPullRequest) :=
  let* commits_between :=
    fetch_changes_commits fuel github_config owner repo
      previous_tag current_tag branch in
  fetch_changes_walk github_config owner repo branch ignore_release_merge
    commits_between.

End Changes.

(** [LABEL_LEVELS.get(label) or 2] *)
Definition label_level (label : string) : Z :=
  match LABEL_LEVELS !! label with
  | Some level => if level =? 0 then 2 else level
  | None => 2
  end.

(** The body of the loop of [format_changes]; [st] holds [lines] and
    [change_level]. *)
Definition format_changes_step (github_config : GitHubConfig)
    (owner repo : string) (markdown : bool)
    (st : list string * Z) (extended_pr : ExtendedPullRequest)
    : list string * Z :=
  let '(lines, change_level) := st in
  let pr := pr extended_pr in
  let pr_number := number pr in
  let number := "#" +:+ pr_number in
  let number :=
    if markdown then
      let link :=
        base_url github_config +:+ "/" +:+ owner +:+ "/" +:+ repo
        +:+ "/pull/" +:+ pr_number in
      "[" +:+ number +:+ "](" +:+ link +:+ ")"
    else number in
  let pr_changelog_description :=
    extract_changelog (body (details extended_pr)) in
  let labels := default [] (labels (details extended_pr)) in
  let change_level :=
    if (length labels =? 0)%nat then Z.min change_level 2 else change_level in
  let change_level :=
    fold_left (λ level label, Z.min level (label_level label)) labels
      change_level in
  (lines ++ ["- " +:+ default (title pr) pr_changelog_description
             +:+ " " +:+ number],
   change_level).

Definition format_changes (github_config : GitHubConfig) (owner repo : string)
    (prs : list ExtendedPullRequest) (markdown : bool) : result (list string) :=
  let '(lines, change_level) :=
    fold_left (format_changes_step github_config owner repo markdown) prs ([], 3) in
  let* header :=
    getitem (Str.of_int change_level) (CHANGELOG_LEVEL_MESSAGE !! change_level) in
  Ok (header :: lines).

Definition generate_changelog (net : Network) (fuel : nat) (owner repo : string)
    (previous_tag current_tag : option string) (markdown single_line : bool)
    (branch : option string) (github_base_url github_api_url : string)
    (github_token : option string) (ignore_release_merge : bool)
    : result string :=
  let github_config :=
    get_github_config net github_base_url github_api_url github_token in
  let* prs :=
    fetch_changes net fuel github_config owner repo previous_tag current_tag
      branch ignore_release_merge in
  let* lines := format_changes github_config owner repo prs markdown in
  let separator := if single_line then "\n" else LF in
  Ok (Str.join separator lines).


(** ** The specification *)

(** *** Commit message templates *)

(** A text without line feed, a non-empty run of decimal digits, and a text
    that is empty or starts with a line feed. *)
Definition one_line (s : string) : bool := Str.all (Regex.mem Regex.Dot) s.
Definition is_number (s : string) : bool :=
  Str.all (Regex.mem Regex.Digit) s && (0 <? String.length s)%nat.
Definition line_end (s : string) : bool := Str.stops (Regex.mem Regex.Dot) s.

(** The merge-commit template: a first line
    [Merge pull request #<number> from <branch>], a blank line, then the
    title line. *)
Definition merge_form (message number branch title rest : string) : Prop :=
  message = "Merge pull request #" +:+ number +:+ " from " +:+ branch
            +:+ LFLF +:+ title +:+ rest
  ∧ is_number number = true ∧ one_line branch = true
  ∧ one_line title = true ∧ line_end rest = true.

Definition merge_template (message : string) : Prop :=
  ∃ number branch title rest, merge_form message number branch title rest.

(** The squash template: a first line that holds [<title> (#<number>)],
    with any text after the closing parenthesis. *)
Definition squash_form (message title number trailing : string) : Prop :=
  message = title +:+ " (#" +:+ number +:+ ")" +:+ trailing
  ∧ one_line title = true ∧ is_number number = true.

Definition squash_template (message : string) : Prop :=
  ∃ title number trailing, squash_form message title number trailing.

(** The capture of the squash template is the last [(#<number>)] of the
    first line: no other way to read the message has a longer title. *)
Definition squash_captured (message title number trailing : string) : Prop :=
  squash_form message title number trailing
  ∧ ∀ title' number' trailing',
      squash_form message title' number' trailing' →
      (String.length title' ≤ String.length title)%nat.

(** *** Resolution of a commit walk *)

Section Resolution.

Variable net : Network.
Variables (github_config : GitHubConfig) (owner repo : string).
Variable ignore_release_merge : bool.

(** The change-request one commit resolves to, if any: by its message when
    it looks like a merge (unless it is an ignored release merge), by the
    remote lookup otherwise. *)
Definition resolve_commit (commit : Commit) : option PullRequest :=
  if truthy (is_pr (message commit)) then
    if ignore_release_merge && truthy (is_release_merge (message commit))
    then None
    else
      match extract_pr (message commit) with
      | Ok p => Some p
      | _ => None
      end
  else
    match get_pr_for_commit net github_config owner repo (sha commit) with
    | Ok p => p
    | _ => None
    end.

(** The change-requests of a walk, in walk order, duplicates included. *)
Definition resolved (commits : list Commit) : list PullRequest :=
  omap resolve_commit commits.

End Resolution.

(** Deduplication by number where the first occurrence wins. *)
Fixpoint first_occurrences (l : list PullRequest) : list PullRequest :=
  match l with
  | [] => []
  | p :: l' =>
      p :: filter (λ q, number q ≠ number p) (first_occurrences l')
  end.

(** *** Severity *)

Definition MAJOR : Z := 1.
Definition MINOR : Z := 2.
Definition PATCH : Z := 3.

(** The label table of the specification; keys are compared exactly. *)
Definition table_level (label : string) : Z :=
  if decide (label ∈ ["patch"; "hotfix"; "fix"]) then PATCH
  else if decide (label ∈ ["minor"; "feature"]) then MINOR
  else if decide (label ∈ ["breaking"; "major"]) then MAJOR
  else MINOR.

(** The levels one entry contributes: [MINOR] when it has no label, the
    level of each label otherwise. *)
Definition entry_levels (e : ExtendedPullRequest) : list Z :=
  match labels (details e) with
  | None | Some [] => [MINOR]
  | Some ls => table_level <$> ls
  end.

(** All the levels of a run, starting from [PATCH]. *)
Definition levels (prs : list ExtendedPullRequest) : list Z :=
  PATCH :: mjoin (entry_levels <$> prs).

Definition is_minimum (m : Z) (l : list Z) : Prop :=
  m ∈ l ∧ ∀ x, x ∈ l → m ≤ x.

Definition level_header (level : Z) : string :=
  if decide (level = MAJOR) then "MAJOR RELEASE"
  else if decide (level = MINOR) then "MINOR RELEASE"
  else "PATCH RELEASE".

(** *** Release merges *)

(** A merge commit of a release branch: the branch name of the merge
    template holds [/release/]. *)
Definition release_template (message : string) : Prop :=
  ∃ number before after title rest,
    merge_form message number (before +:+ "/release/" +:+ after) title rest.

(** *** Lines and the CHANGELOG line *)

(** The lines of a text: the pieces between its line feeds. *)
Fixpoint lines (s : string) : list string :=
  match s with
  | EmptyString => [EmptyString]
  | String c s' =>
      if Ascii.eqb c "010" then EmptyString :: lines s'
      else
        match lines s' with
        | l :: ls => String c l :: ls
        | [] => [String c EmptyString]
        end
  end.

(** What a line [CHANGELOG:<remainder>] gives, [following] being the lines
    after it: the remainder without one leading white space; and when the
    remainder is empty, the white space dropped is the line feed, so that the
    next line is taken. *)
Definition changelog_of (remainder : string) (following : list string) : string :=
  match remainder with
  | EmptyString =>
      match following with
      | next :: _ => next
      | [] => EmptyString
      end
  | String w r => if Regex.mem Regex.Space w then r else remainder
  end.

(** The changelog of the first line that starts with [CHANGELOG:]. *)
Fixpoint first_changelog (ls : list string) : option string :=
  match ls with
  | [] => None
  | l :: ls' =>
      match Str.strip "CHANGELOG:" l with
      | Some r => Some (changelog_of r ls')
      | None => first_changelog ls'
      end
  end.

(** *** Chains of tag objects *)

Section TagChain.

Variable net : Network.
Variable github_config : GitHubConfig.

(** The reference at [url] is answered with status 200 and the object [o]. *)
Definition answers (url : string) (o : GitObject) : Prop :=
  status_code (get_ref net url (headers github_config)) = 200
  ∧ ref_object (json (get_ref net url (headers github_config))) = Some o.

(** [tag_path url n url']: starting at [url], [n] tag objects, each at the
    URL the one before gives, lead to [url']. *)
Inductive tag_path : string → nat → string → Prop :=
| tag_path_here (url : string) : tag_path url 0 url
| tag_path_next (url : string) (o : GitObject) (n : nat) (url' : string) :
    answers url o → obj_type o = "tag" → tag_path (obj_url o) n url' →
    tag_path url (S n) url'.

End TagChain.

(** The URL [get_commit_for_tag] starts from. *)
Definition tag_ref_url (github_config : GitHubConfig) (owner repo tag : string)
    : string :=
  Str.join "/"
    [api_url github_config; "repos"; owner; repo; "git"; "refs"; "tags"; tag].

(** *** The state of the walk *)

(** What the loop of [fetch_changes] keeps true of [prs] and
    [processed_pr_numbers]: the set holds exactly the numbers of the list,
    and no number is twice in the list. *)
Definition walk_state_ok (st : list PullRequest * gset string) : Prop :=
  st.2 = list_to_set (number <$> st.1) ∧ NoDup (number <$> st.1).

(** A remote that differs from [net] in the answers to the list of tags and
    to the commits of a branch. *)
Definition with_tags_and_head (net : Network)
    (tags : string → gmap string string → Response (list TagJson))
    (commits : string → option string → gmap string string → Response CommitsJson)
    : Network :=
  {| environ := environ net;
     get_ref := get_ref net;
     get_commits := commits;
     get_tags := tags;
     get_compare := get_compare net;
     get_pull := get_pull net;
     get_commit_pulls := get_commit_pulls net |}.

(** *** The line of an entry *)

(** The line of one entry: the changelog of its body if it has one, its
    title otherwise, then the number, as a link in markdown. *)
Definition entry_line (github_config : GitHubConfig) (owner repo : string)
    (markdown : bool) (e : ExtendedPullRequest) : string :=
  let description :=
    match extract_changelog (body (details e)) with
    | Some changelog => changelog
    | None => title (pr e)
    end in
  let reference := "#" +:+ number (pr e) in
  let link :=
    base_url github_config +:+ "/" +:+ owner +:+ "/" +:+ repo +:+ "/pull/"
    +:+ number (pr e) in
  "- " +:+ description +:+ " "
  +:+ (if markdown then "[" +:+ reference +:+ "](" +:+ link +:+ ")"
       else reference).

(** Labels of the table that stand for a major and for a patch change. *)
Definition major_label (label : string) : Prop :=
  label = "breaking" ∨ label = "major".
Definition patch_label (label : string) : Prop :=
  label = "patch" ∨ label = "hotfix" ∨ label = "fix".

(** ** Sample inputs *)

Module Sample.

(** Commit messages of the repository's tests. *)
Definition merge_message : string :=
  "Merge pull request #1234 from some/branch" +:+ LFLF +:+ "My Title".
Definition squash_message : string :=
  "My Title (#1234)" +:+ LFLF +:+ "My description".
Definition plain_message : string := "I made some changes!".

(** A merge commit whose branch name ends like a squash title. *)
Definition both_message : string :=
  "Merge pull request #1 from a/b (#2)" +:+ LFLF +:+ "T".

(** A remote with one tag, one head commit, the given commits between them,
    and the given answers to the lookup of a commit's change-requests and to
    the request of a change-request. *)
Definition remote (commits : list CommitJson)
    (pulls_of : string → Response (list PullRef))
    (pull : string → PullJson) : Network := {|
  environ := λ _, None;
  get_ref := λ _ _,
    {| status_code := 200;
       json := {| ref_message := None;
                  ref_object := Some {| obj_type := "commit"; obj_sha := "4";
                                        obj_url := "" |} |} |};
  get_commits := λ _ _ _,
    {| status_code := 200; json := CommitList [{| cr_sha := "10" |}] |};
  get_tags := λ _ _,
    {| status_code := 200; json := [{| tag_name := "0.1.0" |}] |};
  get_compare := λ _ _,
    {| status_code := 200;
       json := {| cmp_message := None; cmp_commits := Some commits |} |};
  get_pull := λ url _, {| status_code := 200; json := pull url |};
  get_commit_pulls := λ url _, pulls_of url
|}.

Definition commit_json (sha message : string) : CommitJson :=
  {| cj_sha := sha; cj_commit := {| cb_message := message |} |}.

Definition config : GitHubConfig :=
  {| base_url := PUBLIC_GITHUB_URL; api_url := PUBLIC_GITHUB_API_URL;
     headers := ∅ |}.

Definition no_pulls : Response (list PullRef) :=
  {| status_code := 200; json := [] |}.

Definition plain_pull : PullJson :=
  {| pull_body := Some "PR body content"; pull_labels := [] |}.

(** The four commits of the round-trip scenario and their remote. The fourth
    is a rebase commit: its message has no template and the lookup of its
    change-requests answers #10, whose body has a CHANGELOG line. *)
Definition commit5 : CommitJson :=
  commit_json "5" ("Merge pull request #5 from some/branch" +:+ LFLF +:+ "My Title").
Definition commit6 : CommitJson :=
  commit_json "6" "Some title addresses bug (#6)".
Definition commit9 : CommitJson :=
  commit_json "9" ("My Title (#9)" +:+ LFLF +:+ "My description").
Definition commit10 : CommitJson :=
  commit_json "10" "Apply the rebased change".

Definition round_trip (commits : list CommitJson) : Network :=
  remote commits
    (λ url,
       if String.eqb url "https://api.github.com/repos/someone/one-repo/commits/10/pulls"
       then {| status_code := 200;
               json := [{| pull_number := 10; pull_title := "My Title" |}] |}
       else no_pulls)
    (λ url,
       if String.eqb url "https://api.github.com/repos/someone/one-repo/pulls/10"
       then {| pull_body := Some ("My Title #10" +:+ LFLF
                                  +:+ "CHANGELOG: Specific Changelog");
               pull_labels := [] |}
       else plain_pull).

(** The walk in the order the scenario lists it, and newest first. *)
Definition listed_walk : list CommitJson := [commit5; commit6; commit9; commit10].
Definition newest_first_walk : list CommitJson :=
  [commit10; commit9; commit6; commit5].

(** The walk of the repository's end-to-end test: six commits, newest
    first, two of which resolve to nothing. *)
Definition tested_walk : list CommitJson :=
  [commit_json "10"
     ("Merge pull request #10 from some/branch" +:+ LFLF +:+ "My Title");
   commit9;
   commit_json "8" plain_message;
   commit_json "7" ("Merge pull request from some/branch" +:+ LFLF +:+ "My Title");
   commit6;
   commit5].

(** Three rebase commits: the first two belong to change-request 100, the
    third to 101. *)
Definition rebase_remote : Network :=
  remote
    [commit_json "commit1" "Fix bug in authentication";
     commit_json "commit2" "Add unit tests";
     commit_json "commit3" "Update documentation"]
    (λ url,
       if String.eqb url "https://api.github.com/repos/owner/repo/commits/commit3/pulls"
       then {| status_code := 200;
               json := [{| pull_number := 101; pull_title := "Documentation updates" |}] |}
       else {| status_code := 200;
               json := [{| pull_number := 100; pull_title := "Fix authentication bug" |}] |})
    (λ _, plain_pull).

Definition rebase_commits : list Commit :=
  [{| sha := "commit1"; message := "Fix bug in authentication" |};
   {| sha := "commit2"; message := "Add unit tests" |};
   {| sha := "commit3"; message := "Update documentation" |}].

Definition plain_details : PullRequestDetails :=
  {| body := Some "PR body content"; labels := Some [] |}.

Definition rebase_changes : list ExtendedPullRequest :=
  [{| pr := {| number := "101"; title := "Documentation updates" |};
      details := plain_details |};
   {| pr := {| number := "100"; title := "Fix authentication bug" |};
      details := plain_details |}].

(** No commit between the two endpoints. *)
Definition empty_remote : Network := remote [] (λ _, no_pulls) (λ _, plain_pull).

(** Commits that resolve to no change-request. *)
Definition orphan_remote : Network :=
  remote [commit_json "8" plain_message] (λ _, no_pulls) (λ _, plain_pull).

(** A lookup answered with status 201 and one change-request. *)
Definition created_remote : Network :=
  remote [commit_json "8" plain_message]
    (λ _, {| status_code := 201;
             json := [{| pull_number := 7; pull_title := "Seven" |}] |})
    (λ _, plain_pull).

(** The lines of the round-trip scenario. *)
Definition round_trip_lines : list string :=
  ["MINOR RELEASE"; "- My Title #5"; "- Some title addresses bug #6";
   "- My Title #9"; "- Specific Changelog #10"].

Definition round_trip_lines_reversed : list string :=
  ["MINOR RELEASE"; "- Specific Changelog #10"; "- My Title #9";
   "- Some title addresses bug #6"; "- My Title #5"].

(** [fetch_changes] then [format_changes], as [generate_changelog] runs
    them, on the remote [net]. *)
Definition changelog_lines (net : Network) : result (list string) :=
  let* prs :=
    fetch_changes net 1 config "someone" "one-repo" None None None false in
  format_changes config "someone" "one-repo" prs false.

Definition changelog_text (net : Network) : result string :=
  generate_changelog net 1 "someone" "one-repo" None None false false None
    PUBLIC_GITHUB_URL PUBLIC_GITHUB_API_URL None false.

Definition commit_of (c : CommitJson) : Commit :=
  {| sha := cj_sha c; message := cb_message (cj_commit c) |}.

(** Entries with labels. *)
Definition entry (n : string) (ls : option (list string)) : ExtendedPullRequest :=
  {| pr := {| number := n; title := "Change " +:+ n |};
     details := {| body := None; labels := ls |} |}.

End Sample.

Module SampleMore.

(** A merge commit of a release branch, and a remote whose only commit it
    is. *)
Definition release_message : string :=
  "Merge pull request #12 from org/release/1.2" +:+ LFLF +:+ "Release 1.2".
Definition release_commit : Commit :=
  {| sha := "12"; message := release_message |}.
Definition release_remote : Network :=
  Sample.remote [Sample.commit_json "12" release_message]
    (λ _, Sample.no_pulls) (λ _, Sample.plain_pull).

(** A body whose CHANGELOG line is empty. *)
Definition changelog_body : string :=
  "Intro" +:+ LF +:+ "CHANGELOG:" +:+ LF +:+ "Taken from the next line"
  +:+ LF +:+ "more".

(** References: the tag v1 is a tag object that points to a commit, the tag
    tree points to a tree, and any other reference is not found. *)
Definition v1_url : string :=
  "https://api.github.com/repos/owner/repo/git/refs/tags/v1".
Definition tree_url : string :=
  "https://api.github.com/repos/owner/repo/git/refs/tags/tree".
Definition gone_url : string :=
  "https://api.github.com/repos/owner/repo/git/refs/tags/gone".
Definition v1_object : GitObject :=
  {| obj_type := "tag"; obj_sha := "abcdef0123456789"; obj_url := "http://foo" |}.
Definition v1_commit : GitObject :=
  {| obj_type := "commit"; obj_sha := "0123456789abcdef"; obj_url := "" |}.
Definition tree_object : GitObject :=
  {| obj_type := "tree"; obj_sha := "fedcba9876543210"; obj_url := "" |}.

Definition tag_remote : Network := {|
  environ := environ Sample.empty_remote;
  get_ref := λ url _,
    if String.eqb url v1_url then
      {| status_code := 200;
         json := {| ref_message := None; ref_object := Some v1_object |} |}
    else if String.eqb url "http://foo" then
      {| status_code := 200;
         json := {| ref_message := None; ref_object := Some v1_commit |} |}
    else if String.eqb url tree_url then
      {| status_code := 200;
         json := {| ref_message := None; ref_object := Some tree_object |} |}
    else
      {| status_code := 404;
         json := {| ref_message := Some "Not Found"; ref_object := None |} |};
  get_commits := get_commits Sample.empty_remote;
  get_tags := get_tags Sample.empty_remote;
  get_compare := get_compare Sample.empty_remote;
  get_pull := get_pull Sample.empty_remote;
  get_commit_pulls := get_commit_pulls Sample.empty_remote
|}.


Definition pr100 : PullRequest :=
  {| number := "100"; title := "Fix authentication bug" |}.
Definition pr101 : PullRequest :=
  {| number := "101"; title := "Documentation updates" |}.

Definition patch_entry : ExtendedPullRequest :=
  Sample.entry "1" (Some ["patch"; "fix"]).
Definition breaking_entry : ExtendedPullRequest :=
  Sample.entry "2" (Some ["breaking"]).

End SampleMore.

(** * Proofs *)

(** ** Strings *)

Module StrFacts.

Lemma append_nil_l (s : string) : "" +:+ s = s.
Proof. reflexivity. Qed.

Lemma append_cons (c : ascii) (s t : string) :
  String c s +:+ t = String c (s +:+ t).
Proof. reflexivity. Qed.

Lemma append_nil_r (s : string) : s +:+ "" = s.
Proof. induction s as [|c s IH]; [done|]. by rewrite append_cons, IH. Qed.

Lemma append_assoc (a b c : string) : (a +:+ b) +:+ c = a +:+ (b +:+ c).
Proof. induction a as [|x a IH]; [done|]. by rewrite !append_cons, IH. Qed.

Lemma length_append (a b : string) :
  String.length (a +:+ b) = (String.length a + String.length b)%nat.
Proof. induction a as [|x a IH]; [done|]. rewrite append_cons. simpl. by rewrite IH. Qed.

Lemma all_append (p : ascii → bool) (a b : string) :
  Str.all p (a +:+ b) = Str.all p a && Str.all p b.
Proof.
  induction a as [|x a IH]; [done|]. rewrite append_cons. simpl.
  rewrite IH. by destruct (p x).
Qed.

Lemma strip_app (l s : string) : Str.strip l (l +:+ s) = Some s.
Proof.
  induction l as [|a l IH]; [by destruct s|].
  rewrite append_cons. simpl. by rewrite Ascii.eqb_refl.
Qed.

Lemma strip_Some (l s s' : string) : Str.strip l s = Some s' → s = l +:+ s'.
Proof.
  revert s. induction l as [|a l IH]; intros s.
  - simpl. intros [= <-]. reflexivity.
  - destruct s as [|b s]; simpl; [done|].
    destruct (Ascii.eqb_spec a b) as [->|]; [|done].
    intros H. rewrite append_cons. f_equal. auto.
Qed.

(** Two ways to cut one string: the shorter head is a prefix of the longer. *)
Lemma append_eq_append (a b c d : string) :
  a +:+ b = c +:+ d → (String.length a ≤ String.length c)%nat →
  ∃ e, c = a +:+ e ∧ b = e +:+ d.
Proof.
  revert c. induction a as [|x a IH]; intros c H Hlen.
  - exists c. by rewrite append_nil_l in H.
  - destruct c as [|y c]; simpl in Hlen; [lia|].
    rewrite !append_cons in H. injection H as -> H.
    destruct (IH c H) as (e & -> & ->); [lia|].
    exists e. done.
Qed.

(** Every string splits into its first line and the rest. *)
Lemma first_line (p : ascii → bool) (s : string) :
  ∃ a b, s = a +:+ b ∧ Str.all p a = true ∧ Str.stops p b = true.
Proof.
  induction s as [|c s (a & b & -> & Ha & Hb)].
  - by exists "", "".
  - destruct (p c) eqn:Hc.
    + exists (String c a), b. simpl. by rewrite Hc, Ha.
    + exists "", (String c (a +:+ b)). simpl. by rewrite Hc.
Qed.

End StrFacts.

(** ** The matcher *)

Module RegexFacts.
Import StrFacts.

Section Greedy.

Context {A : Type} (p : ascii → bool).

(** A result of [greedy] comes from a run of [p] on which [k] succeeds. *)
Lemma greedy_sound (k : string → string → option A) (s : string) (a : A) :
  Regex.greedy p k s = Some a →
  ∃ m rest, s = m +:+ rest ∧ Str.all p m = true ∧ k m rest = Some a.
Proof.
  revert k. induction s as [|c s IH]; intros k; simpl.
  - intros H. by exists "", "".
  - destruct (p c) eqn:Hc.
    + destruct (Regex.greedy p _ s) as [a'|] eqn:Hg.
      * intros [= ->]. apply IH in Hg as (m & rest & -> & Hm & Hk).
        exists (String c m), rest. simpl. by rewrite Hc, Hm.
      * intros H. by exists "", (String c s).
    + intros H. by exists "", (String c s).
Qed.

(** Among the runs of [p] on which [k] succeeds, the longest one wins. *)
Lemma greedy_longest (k : string → string → option A) (s m rest : string) (a : A) :
  s = m +:+ rest → Str.all p m = true → k m rest = Some a →
  (∀ m' rest', s = m' +:+ rest' → Str.all p m' = true →
               (String.length m < String.length m')%nat → k m' rest' = None) →
  Regex.greedy p k s = Some a.
Proof.
  revert k m. induction s as [|c s IH]; intros k m Hs Hm Hk Hmax.
  - destruct m; [|by rewrite append_cons in Hs].
    rewrite append_nil_l in Hs. by subst rest.
  - simpl. destruct m as [|x m].
    + rewrite append_nil_l in Hs. subst rest.
      destruct (p c) eqn:Hc; [|done].
      destruct (Regex.greedy p _ s) as [a'|] eqn:Hg; [|done].
      apply greedy_sound in Hg as (m' & rest' & -> & Hm' & Hk').
      rewrite (Hmax (String c m') rest') in Hk'; [done|done| |simpl; lia].
      simpl. by rewrite Hc, Hm'.
    + rewrite append_cons in Hs. injection Hs as <- ->.
      simpl in Hm. apply andb_prop in Hm as [Hc Hm]. rewrite Hc.
      assert (Regex.greedy p (λ m0 r, k (String c m0) r) (m +:+ rest) = Some a)
        as ->; [|done].
      apply (IH _ m); [done..|].
      intros m' rest' Heq Hm' Hlen.
      apply Hmax; [by rewrite append_cons, Heq| |simpl; lia].
      simpl. by rewrite Hc, Hm'.
Qed.

(** The run that cannot be extended is tried first. *)
Lemma greedy_first (k : string → string → option A) (m rest : string) (a : A) :
  Str.all p m = true → Str.stops p rest = true → k m rest = Some a →
  Regex.greedy p k (m +:+ rest) = Some a.
Proof.
  intros Hm Hstop Hk. apply (greedy_longest k _ m rest); [done..|].
  intros m' rest' Heq Hm' Hlen.
  destruct (append_eq_append m rest m' rest' Heq) as (e & -> & ->); [lia|].
  rewrite length_append in Hlen. destruct e as [|c e]; [simpl in Hlen; lia|].
  rewrite all_append in Hm'. apply andb_prop in Hm' as [_ He].
  rewrite append_cons in Hstop. simpl in He, Hstop. by destruct (p c).
Qed.

(** [greedy] fails only if [k] fails on every run of [p]. *)
Lemma greedy_None (k : string → string → option A) (s m rest : string) :
  Regex.greedy p k s = None → s = m +:+ rest → Str.all p m = true →
  k m rest = None.
Proof.
  revert k m. induction s as [|c s IH]; intros k m; simpl.
  - intros Hk Hs. destruct m; [|by rewrite append_cons in Hs].
    rewrite append_nil_l in Hs. by subst.
  - destruct m as [|x m].
    + rewrite append_nil_l. intros H <- _. destruct (p c); [|done].
      by destruct (Regex.greedy p _ s).
    + rewrite append_cons. intros H [= <- ->] Hm.
      simpl in Hm. apply andb_prop in Hm as [Hc Hm]. rewrite Hc in H.
      destruct (Regex.greedy p _ _) eqn:Hg; [done|].
      by apply (IH _ m) in Hg.
Qed.

(** A result of [greedy] comes from the longest run on which [k] succeeds. *)
Lemma greedy_Some_longest (k : string → string → option A) (s : string) (a : A) :
  Regex.greedy p k s = Some a →
  ∃ m rest, s = m +:+ rest ∧ Str.all p m = true ∧ k m rest = Some a
    ∧ ∀ m' rest', s = m' +:+ rest' → Str.all p m' = true →
        (String.length m < String.length m')%nat → k m' rest' = None.
Proof.
  revert k. induction s as [|c s IH]; intros k; simpl.
  - intros H. exists "", "". repeat split; [done|].
    intros [|x m'] rest' Heq _ Hlen; [simpl in Hlen; lia|].
    by rewrite append_cons in Heq.
  - assert (Hshort : k "" (String c s) = Some a → p c = false ∨
              Regex.greedy p (λ m r, k (String c m) r) s = None →
              ∃ m rest, String c s = m +:+ rest ∧ Str.all p m = true
                ∧ k m rest = Some a
                ∧ ∀ m' rest', String c s = m' +:+ rest' → Str.all p m' = true →
                    (String.length m < String.length m')%nat → k m' rest' = None).
    { intros Hk Hno. exists "", (String c s). repeat split; [done|].
      intros [|x m'] rest' Heq Hm' Hlen; [simpl in Hlen; lia|].
      rewrite append_cons in Heq. injection Heq as <- ->.
      simpl in Hm'. apply andb_prop in Hm' as [Hc Hm'].
      destruct Hno as [Hno|Hno]; [congruence|].
      by apply (greedy_None _ _ m' rest') in Hno. }
    destruct (p c) eqn:Hc; [|intros; apply Hshort; auto].
    destruct (Regex.greedy p _ s) as [a'|] eqn:Hg; [|intros; apply Hshort; auto].
    intros [= ->]. apply IH in Hg as (m & rest & -> & Hm & Hk & Hmax).
    exists (String c m), rest. simpl. rewrite Hc, Hm. repeat split; [done|].
    intros [|x m'] rest' Heq Hm' Hlen; [simpl in Hlen; lia|].
    rewrite append_cons in Heq. injection Heq as <- Heq.
    simpl in Hm', Hlen. apply andb_prop in Hm' as [_ Hm'].
    apply Hmax; [done|done|lia].
Qed.

End Greedy.

(** *** Steps of [run] *)

Lemma run_lit (l : string) (r : list Regex.item) (s : string) :
  Regex.run (Regex.Lit l :: r) (l +:+ s) = Regex.run r s.
Proof. simpl. by rewrite strip_app. Qed.

Lemma run_lit_Some (l : string) (r : list Regex.item) (s : string) g :
  Regex.run (Regex.Lit l :: r) s = Some g →
  ∃ s', s = l +:+ s' ∧ Regex.run r s' = Some g.
Proof.
  simpl. destruct (Str.strip l s) as [s'|] eqn:H; [|done].
  intros Hr. exists s'. split; [by apply strip_Some|done].
Qed.

Lemma run_rep (c : Regex.cls) (least : nat) (capture : bool)
    (r : list Regex.item) (s : string) :
  Regex.run (Regex.Rep c least capture :: r) s
  = Regex.greedy (Regex.mem c) (Regex.after_rep least capture (Regex.run r)) s.
Proof. reflexivity. Qed.

Lemma after_rep_Some least capture r m rest g :
  Regex.after_rep least capture (Regex.run r) m rest = Some g ↔
  (least ≤ String.length m)%nat
  ∧ ∃ g', Regex.run r rest = Some g' ∧ g = if capture then m :: g' else g'.
Proof.
  unfold Regex.after_rep. destruct (Nat.leb_spec least (String.length m)).
  - destruct (Regex.run r rest) as [g'|]; split.
    + intros [= <-]. eauto.
    + intros (_ & g'' & [= <-] & ->). done.
    + done.
    + by intros (_ & g'' & ? & _).
  - split; [done|]. intros [? _]. lia.
Qed.

Lemma run_rep_first c least capture r m rest g :
  Str.all (Regex.mem c) m = true → Str.stops (Regex.mem c) rest = true →
  (least ≤ String.length m)%nat → Regex.run r rest = Some g →
  Regex.run (Regex.Rep c least capture :: r) (m +:+ rest)
  = Some (if capture then m :: g else g).
Proof.
  intros Hm Hstop Hlen Hr. rewrite run_rep. apply greedy_first; [done..|].
  apply after_rep_Some. eauto.
Qed.

Lemma run_rep_Some c least capture r s g :
  Regex.run (Regex.Rep c least capture :: r) s = Some g →
  ∃ m rest g', s = m +:+ rest ∧ Str.all (Regex.mem c) m = true
    ∧ (least ≤ String.length m)%nat ∧ Regex.run r rest = Some g'
    ∧ g = (if capture then m :: g' else g')
    ∧ ∀ m' rest', s = m' +:+ rest' → Str.all (Regex.mem c) m' = true →
        (String.length m < String.length m')%nat →
        (least ≤ String.length m')%nat → Regex.run r rest' = None.
Proof.
  rewrite run_rep. intros H.
  apply greedy_Some_longest in H as (m & rest & -> & Hm & Hk & Hmax).
  apply after_rep_Some in Hk as (Hlen & g' & Hr & ->).
  exists m, rest, g'. repeat split; [done..|].
  intros m' rest' Heq Hm' Hlt Hle. specialize (Hmax m' rest' Heq Hm' Hlt).
  unfold Regex.after_rep in Hmax. apply Nat.leb_le in Hle. rewrite Hle in Hmax.
  by destruct (Regex.run r rest').
Qed.

Lemma run_rep_longest c least capture r s m rest g :
  s = m +:+ rest → Str.all (Regex.mem c) m = true →
  (least ≤ String.length m)%nat → Regex.run r rest = Some g →
  (∀ m' rest', s = m' +:+ rest' → Str.all (Regex.mem c) m' = true →
     (String.length m < String.length m')%nat → Regex.run r rest' = None) →
  Regex.run (Regex.Rep c least capture :: r) s
  = Some (if capture then m :: g else g).
Proof.
  intros Hs Hm Hlen Hr Hmax. rewrite run_rep.
  apply (greedy_longest _ _ s m rest); [done|done| |].
  - apply after_rep_Some. eauto.
  - intros m' rest' Heq Hm' Hlt. unfold Regex.after_rep.
    rewrite (Hmax m' rest' Heq Hm' Hlt). by destruct (_ <=? _)%nat.
Qed.

Lemma run_rep_None c least capture r s m rest :
  Regex.run (Regex.Rep c least capture :: r) s = None →
  s = m +:+ rest → Str.all (Regex.mem c) m = true →
  (least ≤ String.length m)%nat → Regex.run r rest = None.
Proof.
  rewrite run_rep. intros H Hs Hm Hle.
  apply (greedy_None _ _ _ m rest) in H; [|done..].
  unfold Regex.after_rep in H. apply Nat.leb_le in Hle. rewrite Hle in H.
  by destruct (Regex.run r rest).
Qed.

(** A repetition that ends the pattern takes the whole run. *)
Lemma run_rep_last c least capture s g :
  Regex.run [Regex.Rep c least capture] s = Some g →
  ∃ m rest, s = m +:+ rest ∧ Str.all (Regex.mem c) m = true
    ∧ (least ≤ String.length m)%nat ∧ Str.stops (Regex.mem c) rest = true
    ∧ g = if capture then [m] else [].
Proof.
  intros H.
  apply run_rep_Some in H as (m & rest & g' & -> & Hm & Hl & H & -> & Hmax).
  simpl in H. injection H as <-.
  exists m, rest. repeat split; [done..|].
  destruct rest as [|x rest]; [done|]. simpl.
  destruct (Regex.mem c x) eqn:Hx; [|done].
  specialize (Hmax (m +:+ String x "") rest). simpl in Hmax.
  discriminate Hmax.
  - by rewrite append_assoc.
  - rewrite all_append, Hm. simpl. by rewrite Hx.
  - rewrite length_append. simpl. lia.
  - rewrite length_append. lia.
Qed.

(** A pattern that ends in an uncaptured star matches whatever follows. *)
Lemma run_star_end (c : Regex.cls) (s : string) :
  Regex.run [Regex.Rep c 0 false] s = Some [].
Proof.
  destruct (first_line (Regex.mem c) s) as (a & b & -> & Ha & Hb).
  by rewrite (run_rep_first c 0 false [] a b []); [|done|done|lia|].
Qed.

(** Without MULTILINE the caret holds at index 0 only: [search] is [match]. *)
Lemma scan_later (r : Regex.t) (s : string) (after_lf : bool) :
  Regex.multiline r = false → Regex.scan r s false after_lf = None.
Proof.
  intros Hm. revert after_lf. induction s as [|c s IH]; intros b; simpl;
    rewrite Hm; simpl; [done|apply IH].
Qed.

Lemma search_match (r : Regex.t) (s : string) :
  Regex.multiline r = false → Regex.search r s = Regex.re_match r s.
Proof.
  intros Hm. unfold Regex.search, Regex.re_match.
  destruct s as [|c s]; simpl; destruct (Regex.run _ _); try done.
  by apply scan_later.
Qed.

End RegexFacts.

(** ** The commit message templates *)

Module Templates.
Import StrFacts RegexFacts.

Lemma is_number_spec (n : string) :
  is_number n = true ↔
  Str.all (Regex.mem Regex.Digit) n = true ∧ (1 ≤ String.length n)%nat.
Proof.
  unfold is_number. rewrite andb_true_iff, Nat.ltb_lt. intuition lia.
Qed.

(** *** The merge-commit pattern *)

Lemma merge_complete (msg n b t rest : string) :
  merge_form msg n b t rest → Regex.re_match MERGE_PR_RE msg = Some [n; t].
Proof.
  intros (-> & Hn & Hb & Ht & Hr). apply is_number_spec in Hn as [Hd Hl].
  unfold Regex.re_match, MERGE_PR_RE, Regex.body.
  rewrite run_lit.
  rewrite (run_rep_first Regex.Digit 1 true _ n _ [t]); [done|done|done|done|].
  rewrite run_lit.
  rewrite (run_rep_first Regex.Dot 0 false _ b _ [t]); [done|done|done|lia|].
  rewrite run_lit.
  by rewrite (run_rep_first Regex.Dot 0 true [] t rest []); [|done|done|lia|].
Qed.

Lemma merge_sound (msg : string) (g : list string) :
  Regex.re_match MERGE_PR_RE msg = Some g →
  ∃ n b t rest, merge_form msg n b t rest ∧ g = [n; t].
Proof.
  unfold Regex.re_match, MERGE_PR_RE, Regex.body. intros H.
  apply run_lit_Some in H as (s1 & -> & H).
  apply run_rep_Some in H as (n & s2 & g2 & -> & Hn & Hl & H & -> & _).
  apply run_lit_Some in H as (s3 & -> & H).
  apply run_rep_Some in H as (b & s4 & g4 & -> & Hb & _ & H & -> & _).
  apply run_lit_Some in H as (s5 & -> & H).
  apply run_rep_last in H as (t & rest & -> & Ht & _ & Hstop & ->).
  exists n, b, t, rest. split; [|done].
  split; [done|]. repeat split; [|done..]. by apply is_number_spec.
Qed.

Lemma merge_None (msg : string) :
  Regex.re_match MERGE_PR_RE msg = None ↔ ¬ merge_template msg.
Proof.
  split.
  - intros H (n & b & t & rest & Hf). apply merge_complete in Hf. congruence.
  - intros Hno. destruct (Regex.re_match MERGE_PR_RE msg) as [g|] eqn:H; [|done].
    apply merge_sound in H as (n & b & t & rest & Hf & _).
    destruct Hno. by exists n, b, t, rest.
Qed.

(** *** The squash pattern *)

(** What the squash pattern has after its first group. *)
Lemma squash_tail_complete (n tr : string) :
  is_number n = true →
  Regex.run [Regex.Lit " (#"; Regex.Rep Regex.Digit 1 true; Regex.Lit ")";
             Regex.Rep Regex.Dot 0 false] (" (#" +:+ n +:+ ")" +:+ tr)
  = Some [n].
Proof.
  intros [Hd Hl]%is_number_spec. rewrite run_lit.
  rewrite (run_rep_first Regex.Digit 1 true _ n _ []); [done|done|done|done|].
  rewrite run_lit. apply run_star_end.
Qed.

Lemma squash_tail_sound (s : string) (g : list string) :
  Regex.run [Regex.Lit " (#"; Regex.Rep Regex.Digit 1 true; Regex.Lit ")";
             Regex.Rep Regex.Dot 0 false] s = Some g →
  ∃ n tr, s = " (#" +:+ n +:+ ")" +:+ tr ∧ is_number n = true ∧ g = [n].
Proof.
  intros H.
  apply run_lit_Some in H as (s1 & -> & H).
  apply run_rep_Some in H as (n & s2 & g2 & -> & Hn & Hl & H & -> & _).
  apply run_lit_Some in H as (s3 & -> & H).
  rewrite run_star_end in H. injection H as <-.
  exists n, s3. repeat split. by apply is_number_spec.
Qed.

Lemma squash_complete (msg t n tr : string) :
  squash_captured msg t n tr → Regex.re_match SQUASH_PR_RE msg = Some [t; n].
Proof.
  intros [(-> & Ht & Hn) Hmax].
  unfold Regex.re_match, SQUASH_PR_RE, Regex.body.
  apply (run_rep_longest Regex.Dot 0 true _ _ t (" (#" +:+ n +:+ ")" +:+ tr) [n]);
    [done|done|lia|by apply squash_tail_complete|].
  intros t' rest' Heq Ht' Hlt.
  destruct (Regex.run _ rest') as [g|] eqn:Hrun; [|done].
  apply squash_tail_sound in Hrun as (n' & tr' & -> & Hn' & _).
  assert (String.length t' ≤ String.length t)%nat; [|lia].
  by apply (Hmax t' n' tr').
Qed.

Lemma squash_sound (msg : string) (g : list string) :
  Regex.re_match SQUASH_PR_RE msg = Some g →
  ∃ t n tr, squash_captured msg t n tr ∧ g = [t; n].
Proof.
  unfold Regex.re_match, SQUASH_PR_RE, Regex.body. intros H.
  apply run_rep_Some in H as (t & s1 & g1 & -> & Ht & _ & H & -> & Hmax).
  apply squash_tail_sound in H as (n & tr & -> & Hn & ->).
  exists t, n, tr. split; [|done]. split; [done|].
  intros t' n' tr' (Heq & Ht' & Hn').
  destruct (Nat.le_gt_cases (String.length t') (String.length t)); [done|].
  specialize (Hmax t' _ Heq Ht').
  rewrite squash_tail_complete in Hmax; [|done].
  assert (Some [n'] = @None (list string)) by (apply Hmax; lia). done.
Qed.

Lemma squash_None (msg : string) :
  Regex.re_match SQUASH_PR_RE msg = None ↔ ¬ squash_template msg.
Proof.
  split.
  - intros H (t & n & tr & -> & Ht & Hn).
    unfold Regex.re_match, SQUASH_PR_RE, Regex.body in H.
    apply (run_rep_None _ _ _ _ _ t (" (#" +:+ n +:+ ")" +:+ tr)) in H;
      [|done|done|lia].
    by rewrite squash_tail_complete in H.
  - intros Hno. destruct (Regex.re_match SQUASH_PR_RE msg) as [g|] eqn:H; [|done].
    apply squash_sound in H as (t & n & tr & [Hf _] & _).
    destruct Hno. by exists t, n, tr.
Qed.

(** Every message of the squash template has a capture. *)
Lemma squash_template_captured (msg : string) :
  squash_template msg → ∃ t n tr, squash_captured msg t n tr.
Proof.
  intros Hsq. destruct (Regex.re_match SQUASH_PR_RE msg) as [g|] eqn:H.
  - apply squash_sound in H as (t & n & tr & Hc & _). eauto.
  - by apply squash_None in H.
Qed.

End Templates.

(** ** The commit classifier *)

Module Classifier.
Import StrFacts RegexFacts Templates.

Lemma is_pr_match (msg : string) :
  is_pr msg =
    match Regex.re_match MERGE_PR_RE msg with
    | Some m => Some m
    | None => Regex.re_match SQUASH_PR_RE msg
    end.
Proof. unfold is_pr. by rewrite !search_match. Qed.

Lemma extract_pr_merge (msg n t : string) :
  Regex.re_match MERGE_PR_RE msg = Some [n; t] →
  extract_pr msg = Ok {| number := n; title := t |}.
Proof. intros H. unfold extract_pr. by rewrite H. Qed.

Lemma extract_pr_squash (msg t n : string) :
  Regex.re_match MERGE_PR_RE msg = None →
  Regex.re_match SQUASH_PR_RE msg = Some [t; n] →
  extract_pr msg = Ok {| number := n; title := t |}.
Proof. intros H1 H2. unfold extract_pr. by rewrite H1, H2. Qed.

(** [extract_pr] succeeds exactly on the messages [is_pr] accepts. *)
Lemma extract_pr_iff_is_pr (msg : string) :
  (∃ p, extract_pr msg = Ok p) ↔ truthy (is_pr msg) = true.
Proof.
  rewrite is_pr_match. unfold extract_pr.
  destruct (Regex.re_match MERGE_PR_RE msg) as [g|] eqn:Hm.
  - apply merge_sound in Hm as (n & b & t & rest & _ & ->). simpl.
    split; [done|]. eauto.
  - destruct (Regex.re_match SQUASH_PR_RE msg) as [g|] eqn:Hs.
    + apply squash_sound in Hs as (t & n & tr & _ & ->). simpl.
      split; [done|]. eauto.
    + simpl. split; [by intros [p ?]|done].
Qed.

(** C6. A commit message of the merge-commit template (a first line
    "Merge pull request #<number> from <branch>", a blank line, a title line)
    makes [is_pr] true and [extract_pr] return exactly that number and that
    title. Nothing is assumed about the squash template: the merge pattern is
    applied first, so a message that is also of the squash template still
    yields the number and title of the merge template; the match object
    [is_pr] returns is the merge pattern's. *)
Theorem extract_pr_merge_template (msg n b t rest : string) :
  merge_form msg n b t rest →
  truthy (is_pr msg) = true
  ∧ is_pr msg = Some [n; t]
  ∧ extract_pr msg = Ok {| number := n; title := t |}.
Proof.
  intros Hf%merge_complete. rewrite is_pr_match, Hf.
  repeat split. by apply extract_pr_merge.
Qed.

Lemma extract_pr_merge_template_witness :
  merge_form Sample.both_message "1" "a/b (#2)" "T" ""
  ∧ squash_template Sample.both_message
  ∧ truthy (is_pr Sample.both_message) = true
  ∧ is_pr Sample.both_message = Some ["1"; "T"]
  ∧ extract_pr Sample.both_message = Ok {| number := "1"; title := "T" |}.
Proof.
  assert (Hf : merge_form Sample.both_message "1" "a/b (#2)" "T" "").
  { repeat split; reflexivity. }
  split; [exact Hf|]. split.
  - exists "Merge pull request #1 from a/b", "2", (LFLF +:+ "T").
    repeat split; reflexivity.
  - exact (extract_pr_merge_template _ _ _ _ _ Hf).
Defined.

(** C7, amended. A commit message of the squash template
    "<title> (#<number>)<trailing>" that is not of the merge-commit template
    has a capture (the last "(#<number>)" of its first line), and
    [extract_pr] returns the captured title and number: the message is the
    title, a space, the parenthesized number and then the trailing text, so
    everything after the closing parenthesis is left out of the title. *)
Theorem extract_pr_squash_template (msg : string) :
  squash_template msg → ¬ merge_template msg →
  (∃ t n tr, squash_captured msg t n tr)
  ∧ ∀ t n tr, squash_captured msg t n tr →
      msg = t +:+ " (#" +:+ n +:+ ")" +:+ tr
      ∧ extract_pr msg = Ok {| number := n; title := t |}.
Proof.
  intros Hsq Hno. split; [by apply squash_template_captured|].
  intros t n tr Hc. split; [apply Hc|].
  apply extract_pr_squash; [by apply merge_None|by apply (squash_complete _ _ _ tr)].
Qed.

Lemma extract_pr_squash_template_witness :
  squash_template Sample.squash_message
  ∧ ¬ merge_template Sample.squash_message
  ∧ extract_pr Sample.squash_message
    = Ok {| number := "1234"; title := "My Title" |}.
Proof.
  assert (Hsq : squash_template Sample.squash_message).
  { exists "My Title", "1234", (LFLF +:+ "My description").
    repeat split; reflexivity. }
  assert (Hno : ¬ merge_template Sample.squash_message).
  { apply merge_None. reflexivity. }
  split; [exact Hsq|]. split; [exact Hno|].
  destruct (extract_pr_squash_template _ Hsq Hno) as [(t & n & tr & Hc) H].
  destruct (H t n tr Hc) as [_ He]. rewrite He.
  apply squash_complete in Hc. vm_compute in Hc. by injection Hc as <- <-.
Defined.

(** C7 as stated fails on a message of both templates: its squash capture
    is the title "Merge pull request #1 from a/b" and the number "2", and
    [extract_pr] returns the number "1" and the title "T". *)
Lemma extract_pr_squash_counterexample :
  squash_captured Sample.both_message
    "Merge pull request #1 from a/b" "2" (LFLF +:+ "T")
  ∧ extract_pr Sample.both_message = Ok {| number := "1"; title := "T" |}
  ∧ extract_pr Sample.both_message
    ≠ Ok {| number := "2"; title := "Merge pull request #1 from a/b" |}.
Proof.
  split; [|split; [reflexivity|discriminate]].
  assert (H : Regex.re_match SQUASH_PR_RE Sample.both_message
              = Some ["Merge pull request #1 from a/b"; "2"]) by reflexivity.
  apply squash_sound in H as (t & n & tr & Hc & [= <- <-]).
  destruct Hc as [Hf Hmax]. split; [|exact Hmax].
  repeat split; reflexivity.
Qed.

Lemma is_pr_no_template (msg : string) :
  ¬ merge_template msg → ¬ squash_template msg → truthy (is_pr msg) = false.
Proof.
  intros Hm%merge_None Hs%squash_None. by rewrite is_pr_match, Hm, Hs.
Qed.

(** C8. A commit message of neither template makes [is_pr] false and
    [extract_pr] raise; and on every message [extract_pr] succeeds exactly
    when [is_pr] is true. *)
Theorem extract_pr_no_template :
  (∀ msg, ¬ merge_template msg → ¬ squash_template msg →
     truthy (is_pr msg) = false
     ∧ extract_pr msg = Raise (Exception ("Commit isn't a PR merge, " +:+ msg)))
  ∧ (∀ msg, (∃ p, extract_pr msg = Ok p) ↔ truthy (is_pr msg) = true).
Proof.
  split; [|apply extract_pr_iff_is_pr].
  intros msg Hm Hs. split; [by apply is_pr_no_template|].
  apply merge_None in Hm. apply squash_None in Hs.
  unfold extract_pr. by rewrite Hm, Hs.
Qed.

Lemma extract_pr_no_template_witness :
  ¬ merge_template Sample.plain_message
  ∧ ¬ squash_template Sample.plain_message
  ∧ truthy (is_pr Sample.plain_message) = false
  ∧ extract_pr Sample.plain_message
    = Raise (Exception "Commit isn't a PR merge, I made some changes!")
  ∧ ((∃ p, extract_pr Sample.squash_message = Ok p)
     ↔ truthy (is_pr Sample.squash_message) = true).
Proof.
  assert (Hm : ¬ merge_template Sample.plain_message).
  { apply merge_None. reflexivity. }
  assert (Hs : ¬ squash_template Sample.plain_message).
  { apply squash_None. reflexivity. }
  split; [exact Hm|]. split; [exact Hs|].
  destruct extract_pr_no_template as [H1 H2].
  destruct (H1 _ Hm Hs) as [Ha Hb].
  split; [exact Ha|]. split; [exact Hb|]. apply H2.
Defined.

End Classifier.

(** ** Deduplication *)

Module Dedup.

Lemma first_occurrences_elem (l : list PullRequest) (p : PullRequest) :
  p ∈ first_occurrences l → p ∈ l.
Proof.
  induction l as [|a l IH]; simpl; [done|].
  rewrite !elem_of_cons, list_elem_of_filter. intros [->|[_ Hp]]; auto.
Qed.

(** No number occurs twice. *)
Lemma first_occurrences_NoDup (l : list PullRequest) :
  NoDup (number <$> first_occurrences l).
Proof.
  induction l as [|a l IH]; simpl; [constructor|].
  apply NoDup_cons. split.
  - rewrite list_elem_of_fmap. intros (q & Hq & Hin).
    apply list_elem_of_filter in Hin as [Hne _]. congruence.
  - revert IH. generalize (first_occurrences l). intros l' Hl'.
    induction l' as [|b l' IH']; [constructor|].
    rewrite fmap_cons in Hl'. apply NoDup_cons in Hl' as [Hb Hl'].
    destruct (decide (number b ≠ number a)).
    + rewrite filter_cons_True by done. rewrite fmap_cons.
      apply NoDup_cons. split; [|auto].
      rewrite list_elem_of_fmap. intros (q & Hq & Hin).
      apply list_elem_of_filter in Hin as [_ Hin].
      apply Hb. rewrite Hq. by apply list_elem_of_fmap_2.
    + rewrite filter_cons_False by done. auto.
Qed.

(** The entries kept are the first occurrences of their numbers. *)
Lemma first_occurrences_first (l : list PullRequest) (p : PullRequest) :
  p ∈ first_occurrences l ↔
  ∃ i : nat, l !! i = Some p
    ∧ ∀ (j : nat) q, (j < i)%nat → l !! j = Some q → number q ≠ number p.
Proof.
  revert p. induction l as [|a l IH]; intros p; simpl.
  - split; [by intros ?%not_elem_of_nil|by intros (i & ? & _)].
  - rewrite elem_of_cons, list_elem_of_filter, IH. split.
    + intros [->|(Hne & i & Hi & Hfirst)].
      * exists 0%nat. split; [done|]. intros; lia.
      * exists (S i). split; [done|].
        intros [|j] q Hj Hq; simpl in Hq; [congruence|].
        apply (Hfirst j); [lia|done].
    + intros ([|i] & Hi & Hfirst); simpl in Hi.
      * left. congruence.
      * right. split.
        -- intros Heq. by apply (Hfirst 0%nat a); [lia|done|].
        -- exists i. split; [done|].
           intros j q Hj Hq. apply (Hfirst (S j)); [lia|done].
Qed.

(** No number is lost. *)
Lemma first_occurrences_numbers (l : list PullRequest) (n : string) :
  n ∈ number <$> first_occurrences l ↔ n ∈ number <$> l.
Proof.
  induction l as [|a l IH]; simpl; [done|].
  rewrite !elem_of_cons, <- IH, !list_elem_of_fmap. split.
  - intros [?|(q & -> & [_ Hq]%list_elem_of_filter)]; [by left|].
    right. by exists q.
  - intros [?|(q & -> & Hq)]; [by left|].
    destruct (decide (number q = number a)) as [?|Hne]; [by left|].
    right. exists q. split; [done|]. by apply list_elem_of_filter.
Qed.

Lemma filter_all {A} (P : A → Prop) `{!∀ x, Decision (P x)} (l : list A) :
  (∀ x, P x) → filter P l = l.
Proof.
  intros HP. induction l as [|a l IH]; [done|].
  rewrite filter_cons_True by done. by rewrite IH.
Qed.

End Dedup.

(** ** The change resolver *)

Module Resolver.
Import Classifier Dedup.

Section Walk.

Context (net : Network) (github_config : GitHubConfig) (owner repo : string).
Context (branch : option string) (ignore_release_merge : bool).

Local Notation "'step'" :=
  (fetch_changes_step net github_config owner repo ignore_release_merge).
Local Notation "'resolve'" :=
  (resolve_commit net github_config owner repo ignore_release_merge).
Local Notation "'walk'" :=
  (resolved net github_config owner repo ignore_release_merge).
Local Notation "'with_details'" :=
  (λ p, let* d := get_pr_details net github_config owner repo (number p) in
        Ok {| pr := p; details := d |}).

Lemma for_each_cons {S A} (f : S → A → result S) (x : A) (l : list A) (st : S) :
  for_each f (x :: l) st = bind (f st x) (for_each f l).
Proof. reflexivity. Qed.

Lemma get_pr_for_commit_Ok (commit_sha : string) :
  ∃ r, get_pr_for_commit net github_config owner repo commit_sha = Ok r.
Proof.
  unfold get_pr_for_commit. destruct (negb _); [eauto|].
  destruct (json _); eauto.
Qed.

(** One iteration: resolve the commit, then keep the change-request if its
    number is new. No iteration raises. *)
Lemma step_resolve prs (seen : gset string) (c : Commit) :
  step (prs, seen) c =
    Ok (match resolve c with
        | Some p =>
            if decide (number p ∈ seen) then (prs, seen)
            else (prs ++ [p], seen ∪ {[number p]})
        | None => (prs, seen)
        end).
Proof.
  unfold fetch_changes_step, resolve_commit.
  destruct (truthy (is_pr (message c))) eqn:Hpr.
  - destruct (ignore_release_merge && _); [done|].
    apply extract_pr_iff_is_pr in Hpr as [p ->]. done.
  - destruct (get_pr_for_commit_Ok (sha c)) as [r ->]. done.
Qed.

Lemma walk_cons (c : Commit) (commits : list Commit) :
  walk (c :: commits) =
    match resolve c with
    | Some p => p :: walk commits
    | None => walk commits
    end.
Proof. reflexivity. Qed.

(** The loop from any state: the new entries are the first occurrences of
    the numbers not seen before. *)
Lemma walk_from (commits : list Commit) prs (seen : gset string) :
  for_each step commits (prs, seen) =
    Ok (prs ++ filter (λ q, number q ∉ seen) (first_occurrences (walk commits)),
        seen ∪ list_to_set (number <$> walk commits)).
Proof.
  revert prs seen. induction commits as [|c commits IH]; intros prs seen.
  - simpl. by rewrite app_nil_r, (right_id_L ∅ (∪)).
  - rewrite for_each_cons, step_resolve. simpl bind. rewrite walk_cons.
    destruct (resolve c) as [p|]; [|apply IH].
    destruct (decide (number p ∈ seen)) as [Hin|Hin]; rewrite IH; simpl;
      f_equal; f_equal.
    + rewrite filter_cons_False by (intros ?; done).
      rewrite list_filter_filter. f_equal. apply list_filter_iff.
      intros q. split; [|tauto]. intros Hq. split; [done|congruence].
    + set_solver.
    + rewrite filter_cons_True by done. rewrite <- app_assoc. simpl.
      rewrite list_filter_filter. do 2 f_equal. apply list_filter_iff.
      intros q. set_solver.
    + set_solver.
Qed.

(** The loop of [fetch_changes] computes the first occurrences of the
    resolved change-requests. *)
Lemma walk_result (commits : list Commit) :
  for_each step commits ([], ∅) =
    Ok (first_occurrences (walk commits),
        list_to_set (number <$> walk commits)).
Proof.
  rewrite walk_from. f_equal. f_equal.
  - rewrite filter_all; [done|]. intros q. set_solver.
  - by rewrite (left_id_L ∅ (∪)).
Qed.

Lemma comprehension_details (l : list PullRequest) ys :
  comprehension with_details l = Ok ys →
  pr <$> ys = l
  ∧ Forall (λ e, get_pr_details net github_config owner repo (number (pr e))
                 = Ok (details e)) ys.
Proof.
  revert ys. induction l as [|p l IH]; intros ys; simpl.
  - intros [= <-]. split; [done|constructor].
  - destruct (get_pr_details _ _ _ _ _) as [d| |] eqn:Hd; simpl; [|done..].
    destruct (comprehension _ l) as [ys'| |]; simpl; [|done..].
    intros [= <-]. destruct (IH ys' eq_refl) as [<- HF].
    split; [done|]. by constructor.
Qed.

(** What [fetch_changes] returns after it has listed the commits. *)
Lemma fetch_changes_walk_Ok (commits : list Commit) result :
  fetch_changes_walk net github_config owner repo branch ignore_release_merge
    commits = Ok result →
  ∃ extended,
    comprehension with_details (first_occurrences (walk commits)) = Ok extended
    ∧ result = reverse extended
    ∧ (extended = [] → commits = []).
Proof.
  unfold fetch_changes_walk. rewrite walk_result. simpl.
  destruct (comprehension _ _) as [extended| |]; simpl; [|done..].
  destruct (_ && _) eqn:Hcheck; [done|]. intros [= <-].
  exists extended. repeat split. intros ->.
  simpl in Hcheck. by destruct commits.
Qed.

End Walk.

End Resolver.

(** ** Properties of [fetch_changes] *)

Module Changes.
Import Classifier Dedup Resolver.

Section Properties.

Context (net : Network) (fuel : nat) (github_config : GitHubConfig).
Context (owner repo : string) (previous_tag current_tag branch : option string).
Context (ignore_release_merge : bool).

Local Notation "'walk'" :=
  (resolved net github_config owner repo ignore_release_merge).
Local Notation "'the_commits'" :=
  (fetch_changes_commits net fuel github_config owner repo
     previous_tag current_tag branch).
Local Notation "'the_changes'" :=
  (fetch_changes net fuel github_config owner repo
     previous_tag current_tag branch ignore_release_merge).

Lemma fetch_changes_unfold (commits : list Commit) :
  the_commits = Ok commits →
  the_changes =
    fetch_changes_walk net github_config owner repo branch
      ignore_release_merge commits.
Proof. intros H. unfold fetch_changes. by rewrite H. Qed.

(** The entries returned are the first occurrences, with their details, in
    reverse. *)
Lemma fetch_changes_Ok (commits : list Commit) result :
  the_commits = Ok commits → the_changes = Ok result →
  pr <$> result = reverse (first_occurrences (walk commits))
  ∧ Forall (λ e, get_pr_details net github_config owner repo (number (pr e))
                 = Ok (details e)) result
  ∧ (result = [] → commits = []).
Proof.
  intros Hc Hr. rewrite (fetch_changes_unfold commits Hc) in Hr.
  apply fetch_changes_walk_Ok in Hr as (extended & Hcomp & -> & Hnil).
  apply comprehension_details in Hcomp as [<- HF].
  split; [by rewrite fmap_reverse|]. split; [by apply Forall_reverse|].
  intros Hrev. apply Hnil.
  apply (f_equal reverse) in Hrev. by rewrite reverse_involutive in Hrev.
Qed.

(** C1. In the list [fetch_changes] returns for a commit walk, no
    change-request number occurs twice; each entry is the first
    change-request of the walk with its number (so a number resolved from
    several commits keeps its first occurrence, and the later ones add
    nothing); and every number resolved in the walk has its entry. *)
Theorem fetch_changes_unique (commits : list Commit) result :
  the_commits = Ok commits → the_changes = Ok result →
  NoDup ((λ e, number (pr e)) <$> result)
  ∧ (∀ e, e ∈ result →
       ∃ i : nat, walk commits !! i = Some (pr e)
         ∧ ∀ (j : nat) q, (j < i)%nat → walk commits !! j = Some q →
             number q ≠ number (pr e))
  ∧ (∀ q, q ∈ walk commits →
       ∃ e, e ∈ result ∧ number (pr e) = number q).
Proof.
  intros Hc Hr. destruct (fetch_changes_Ok commits result Hc Hr) as (Hpr & _ & _).
  repeat split.
  - change (λ e, number (pr e)) with (number ∘ pr).
    rewrite list_fmap_compose, Hpr, fmap_reverse.
    rewrite reverse_Permutation. apply first_occurrences_NoDup.
  - intros e He. apply first_occurrences_first.
    apply elem_of_reverse. rewrite <- Hpr. by apply list_elem_of_fmap_2.
  - intros q Hq.
    assert (Hn : number q ∈ number <$> first_occurrences (walk commits)).
    { apply first_occurrences_numbers. by apply list_elem_of_fmap_2. }
    apply list_elem_of_fmap in Hn as (p & Hnum & Hp).
    apply elem_of_reverse in Hp. rewrite <- Hpr in Hp.
    apply list_elem_of_fmap in Hp as (e & -> & He). eauto.
Qed.

(** C3. The list [fetch_changes] returns is the reversal of the
    deduplicated walk: the details are fetched for the first occurrences
    in walk order, and the list of entries so obtained is reversed once;
    entry [i] of the result is survivor [n - 1 - i] of the walk, with the
    details fetched for it. *)
Theorem fetch_changes_reversed (commits : list Commit) result :
  the_commits = Ok commits → the_changes = Ok result →
  let survivors := first_occurrences (walk commits) in
  (∃ extended,
     comprehension
       (λ p, let* d := get_pr_details net github_config owner repo (number p) in
             Ok {| pr := p; details := d |})
       survivors = Ok extended
     ∧ pr <$> extended = survivors
     ∧ result = reverse extended)
  ∧ length result = length survivors
  ∧ ∀ (i : nat) e, result !! i = Some e →
      survivors !! (length survivors - 1 - i)%nat = Some (pr e)
      ∧ get_pr_details net github_config owner repo (number (pr e))
        = Ok (details e).
Proof.
  intros Hc Hr survivors.
  destruct (fetch_changes_Ok commits result Hc Hr) as (Hpr & HF & _).
  rewrite (fetch_changes_unfold commits Hc) in Hr.
  apply fetch_changes_walk_Ok in Hr as (extended & Hcomp & -> & _).
  destruct (comprehension_details _ _ _ _ _ _ Hcomp) as [Hext _].
  assert (Hlen : length (reverse extended) = length survivors).
  { rewrite length_reverse. unfold survivors. by rewrite <- Hext, length_fmap. }
  split; [by exists extended|]. split; [done|].
  intros i e Hi. split.
  - apply lookup_lt_Some in Hi as Hlt. rewrite length_reverse in Hlt, Hlen.
    rewrite reverse_lookup in Hi by done.
    unfold survivors. rewrite <- Hext, list_lookup_fmap, length_fmap.
    replace (length extended - 1 - i)%nat with (length extended - S i)%nat by lia.
    by rewrite Hi.
  - by apply (proj1 (Forall_lookup _ _) HF i).
Qed.

(** A walk whose messages have no template and whose lookups find nothing
    resolves to nothing. *)
Lemma walk_orphans (commits : list Commit) :
  Forall (λ c, ¬ merge_template (message c) ∧ ¬ squash_template (message c)
               ∧ get_pr_for_commit net github_config owner repo (sha c)
                 = Ok None) commits →
  walk commits = [].
Proof.
  induction 1 as [|c commits (Hm & Hs & Hnone) _ IH]; [done|].
  change (walk (c :: commits)) with
    (match resolve_commit net github_config owner repo ignore_release_merge c with
     | Some p => p :: walk commits
     | None => walk commits
     end).
  unfold resolve_commit at 1.
  rewrite (is_pr_no_template (message c) Hm Hs).
  by rewrite Hnone.
Qed.

(** C5. When the commit walk is not empty and no commit of it yields a
    change-request, [fetch_changes] raises the consistency error and returns
    no list; that is the case when no message is of either template and
    every lookup finds nothing. And [fetch_changes] returns the empty list
    only when the commit list is empty. *)
Theorem fetch_changes_consistency (commits : list Commit) :
  the_commits = Ok commits →
  (commits ≠ [] → walk commits = [] →
   the_changes = Raise (Exception ("Lots of commits and no PRs on branch "
                                   +:+ str_of_optional branch)))
  ∧ (Forall (λ c, ¬ merge_template (message c) ∧ ¬ squash_template (message c)
                  ∧ get_pr_for_commit net github_config owner repo (sha c)
                    = Ok None) commits →
     walk commits = [])
  ∧ (the_changes = Ok [] → commits = []).
Proof.
  intros Hc. split; [|split].
  - intros Hne Hwalk. rewrite (fetch_changes_unfold commits Hc).
    unfold fetch_changes_walk. rewrite walk_result, Hwalk. simpl.
    by destruct commits.
  - apply walk_orphans.
  - intros Hr. by apply (fetch_changes_Ok commits [] Hc Hr).
Qed.

(** C10. When there is no commit between the two endpoints,
    [fetch_changes] returns the empty list and raises nothing; and
    [format_changes] of no entry is the single line "PATCH RELEASE". *)
Theorem fetch_changes_empty (markdown : bool) :
  the_commits = Ok [] →
  the_changes = Ok []
  ∧ format_changes github_config owner repo [] markdown = Ok ["PATCH RELEASE"].
Proof.
  intros Hc. split; [|reflexivity].
  by rewrite (fetch_changes_unfold [] Hc).
Qed.

(** C9, amended. [get_pr_for_commit] raises nothing on any response that
    carries a list of change-requests: it returns none when the status is
    not 200 or the list is empty, and the first change-request of the list
    otherwise. The resolver does not turn a none into an error: the loop
    goes on with the remaining commits from the same state. *)
Theorem get_pr_for_commit_best_effort (commit_sha : string) :
  let response :=
    get_commit_pulls net
      (Str.join "/" [api_url github_config; "repos"; owner; repo; "commits";
                     commit_sha; "pulls"])
      (headers github_config) in
  let outcome := get_pr_for_commit net github_config owner repo commit_sha in
  (∃ r, outcome = Ok r)
  ∧ (status_code response ≠ 200 ∨ json response = [] → outcome = Ok None)
  ∧ (∀ p ps, status_code response = 200 → json response = p :: ps →
       outcome = Ok (Some {| number := Str.of_int (pull_number p);
                             title := pull_title p |}))
  ∧ ∀ (c : Commit) (rest : list Commit) st,
      sha c = commit_sha → truthy (is_pr (message c)) = false →
      outcome = Ok None →
      for_each
        (fetch_changes_step net github_config owner repo ignore_release_merge)
        (c :: rest) st
      = for_each
          (fetch_changes_step net github_config owner repo ignore_release_merge)
          rest st.
Proof.
  intros response outcome. split; [apply get_pr_for_commit_Ok|].
  split; [|split].
  - unfold outcome, get_pr_for_commit. fold response.
    intros [Hs|Hj].
    + by destruct (Z.eqb_spec (status_code response) 200).
    + rewrite Hj. by destruct (negb _).
  - unfold outcome, get_pr_for_commit. fold response.
    intros p ps -> ->. done.
  - intros c rest [prs seen] <- Hpr Hnone. rewrite for_each_cons.
    unfold fetch_changes_step at 1. rewrite Hpr. fold outcome.
    by rewrite Hnone.
Qed.

End Properties.

Lemma fetch_changes_unique_witness :
  fetch_changes_commits Sample.rebase_remote 1 Sample.config "owner" "repo"
    None None None = Ok Sample.rebase_commits
  ∧ fetch_changes Sample.rebase_remote 1 Sample.config "owner" "repo"
      None None None false = Ok Sample.rebase_changes
  ∧ NoDup ((λ e, number (pr e)) <$> Sample.rebase_changes).
Proof.
  assert (Hc : fetch_changes_commits Sample.rebase_remote 1 Sample.config
                 "owner" "repo" None None None = Ok Sample.rebase_commits)
    by (vm_compute; reflexivity).
  assert (Hr : fetch_changes Sample.rebase_remote 1 Sample.config
                 "owner" "repo" None None None false = Ok Sample.rebase_changes)
    by (vm_compute; reflexivity).
  split; [exact Hc|]. split; [exact Hr|].
  exact (proj1 (fetch_changes_unique _ _ _ _ _ _ _ _ _ _ _ Hc Hr)).
Defined.

Lemma fetch_changes_reversed_witness :
  fetch_changes_commits Sample.rebase_remote 1 Sample.config "owner" "repo"
    None None None = Ok Sample.rebase_commits
  ∧ fetch_changes Sample.rebase_remote 1 Sample.config "owner" "repo"
      None None None false = Ok Sample.rebase_changes
  ∧ length Sample.rebase_changes
    = length (first_occurrences
                (resolved Sample.rebase_remote Sample.config "owner" "repo"
                   false Sample.rebase_commits)).
Proof.
  assert (Hc : fetch_changes_commits Sample.rebase_remote 1 Sample.config
                 "owner" "repo" None None None = Ok Sample.rebase_commits)
    by (vm_compute; reflexivity).
  assert (Hr : fetch_changes Sample.rebase_remote 1 Sample.config
                 "owner" "repo" None None None false = Ok Sample.rebase_changes)
    by (vm_compute; reflexivity).
  split; [exact Hc|]. split; [exact Hr|].
  exact (proj1 (proj2 (fetch_changes_reversed _ _ _ _ _ _ _ _ _ _ _ Hc Hr))).
Defined.

Lemma fetch_changes_consistency_witness :
  fetch_changes_commits Sample.orphan_remote 1 Sample.config "owner" "repo"
    None None None = Ok [{| sha := "8"; message := Sample.plain_message |}]
  ∧ fetch_changes Sample.orphan_remote 1 Sample.config "owner" "repo"
      None None None false
    = Raise (Exception "Lots of commits and no PRs on branch None")
  ∧ fetch_changes Sample.empty_remote 1 Sample.config "owner" "repo"
      None None None false = Ok []
  ∧ Sample.commit_of <$> [] = [].
Proof.
  assert (Hc : fetch_changes_commits Sample.orphan_remote 1 Sample.config
                 "owner" "repo" None None None
               = Ok [{| sha := "8"; message := Sample.plain_message |}])
    by (vm_compute; reflexivity).
  split; [exact Hc|].
  destruct (fetch_changes_consistency Sample.orphan_remote 1 Sample.config
              "owner" "repo" None None None false _ Hc) as (Hraise & Hwalk & _).
  split.
  { apply Hraise; [discriminate|]. apply Hwalk.
    constructor; [|constructor]. split; [|split].
    - apply Templates.merge_None. reflexivity.
    - apply Templates.squash_None. reflexivity.
    - reflexivity. }
  assert (He : fetch_changes_commits Sample.empty_remote 1 Sample.config
                 "owner" "repo" None None None
               = Ok (Sample.commit_of <$> []))
    by (vm_compute; reflexivity).
  assert (Hr : fetch_changes Sample.empty_remote 1 Sample.config
                 "owner" "repo" None None None false = Ok [])
    by (vm_compute; reflexivity).
  split; [exact Hr|].
  exact (proj2 (proj2 (fetch_changes_consistency Sample.empty_remote 1
                         Sample.config "owner" "repo" None None None false
                         _ He)) Hr).
Defined.

Lemma fetch_changes_empty_witness :
  fetch_changes_commits Sample.empty_remote 1 Sample.config "owner" "repo"
    None None None = Ok []
  ∧ fetch_changes Sample.empty_remote 1 Sample.config "owner" "repo"
      None None None false = Ok []
  ∧ format_changes Sample.config "owner" "repo" [] false = Ok ["PATCH RELEASE"].
Proof.
  assert (Hc : fetch_changes_commits Sample.empty_remote 1 Sample.config
                 "owner" "repo" None None None = Ok [])
    by (vm_compute; reflexivity).
  split; [exact Hc|].
  exact (fetch_changes_empty Sample.empty_remote 1 Sample.config
           "owner" "repo" None None None false false Hc).
Defined.

Lemma get_pr_for_commit_best_effort_witness :
  get_pr_for_commit Sample.orphan_remote Sample.config "owner" "repo" "8"
  = Ok None
  ∧ fetch_changes_walk Sample.orphan_remote Sample.config "owner" "repo" None
      false
      [{| sha := "8"; message := Sample.plain_message |};
       {| sha := "6"; message := "Some title addresses bug (#6)" |}]
    = fetch_changes_walk Sample.orphan_remote Sample.config "owner" "repo" None
        false [{| sha := "6"; message := "Some title addresses bug (#6)" |}].
Proof.
  destruct (get_pr_for_commit_best_effort Sample.orphan_remote Sample.config
              "owner" "repo" false "8") as (_ & Hnone & _ & Hstep).
  assert (H : get_pr_for_commit Sample.orphan_remote Sample.config
                "owner" "repo" "8" = Ok None).
  { apply Hnone. right. reflexivity. }
  split; [exact H|].
  unfold fetch_changes_walk.
  rewrite (Hstep {| sha := "8"; message := Sample.plain_message |} _ ([], ∅)
             eq_refl eq_refl H).
  reflexivity.
Defined.

(** C9 as stated fails on a response with a status in the 2xx range other
    than 200: the list has a change-request and the outcome is none. *)
Lemma get_pr_for_commit_counterexample :
  let response :=
    get_commit_pulls Sample.created_remote
      "https://api.github.com/repos/owner/repo/commits/8/pulls" ∅ in
  status_code response = 201
  ∧ json response = [{| pull_number := 7; pull_title := "Seven" |}]
  ∧ get_pr_for_commit Sample.created_remote Sample.config "owner" "repo" "8"
    = Ok None
  ∧ get_pr_for_commit Sample.created_remote Sample.config "owner" "repo" "8"
    ≠ Ok (Some {| number := "7"; title := "Seven" |}).
Proof. repeat split. discriminate. Qed.

(** C4, amended. When the four commits of the scenario are walked newest
    first (the rebase commit of #10, the squash commits of #9 and #6, the
    merge commit of #5), the output is the header "MINOR RELEASE" and the
    lines of #5, #6, #9 and "Specific Changelog #10" in that order; when they
    are walked in the order they are listed, the lines come in the opposite
    order. Either way the lines are the walk reversed. *)
Theorem round_trip_reversal :
  fetch_changes_commits (Sample.round_trip Sample.newest_first_walk) 1
    Sample.config "someone" "one-repo" None None None
  = Ok (Sample.commit_of <$> Sample.newest_first_walk)
  ∧ Sample.changelog_lines (Sample.round_trip Sample.newest_first_walk)
    = Ok Sample.round_trip_lines
  ∧ Sample.changelog_text (Sample.round_trip Sample.newest_first_walk)
    = Ok (Str.join LF Sample.round_trip_lines)
  ∧ fetch_changes_commits (Sample.round_trip Sample.listed_walk) 1
      Sample.config "someone" "one-repo" None None None
    = Ok (Sample.commit_of <$> Sample.listed_walk)
  ∧ Sample.changelog_lines (Sample.round_trip Sample.listed_walk)
    = Ok Sample.round_trip_lines_reversed
  ∧ Sample.changelog_text (Sample.round_trip Sample.listed_walk)
    = Ok (Str.join LF Sample.round_trip_lines_reversed).
Proof. repeat split; vm_compute; reflexivity. Qed.

(** C4 as stated fails: walked in the order they are listed, the commits
    give the line of #10 first and the line of #5 last. *)
Lemma round_trip_counterexample :
  fetch_changes_commits (Sample.round_trip Sample.listed_walk) 1
    Sample.config "someone" "one-repo" None None None
  = Ok (Sample.commit_of <$> Sample.listed_walk)
  ∧ Sample.changelog_lines (Sample.round_trip Sample.listed_walk)
    ≠ Ok Sample.round_trip_lines.
Proof. split; [vm_compute; reflexivity|]. vm_compute. discriminate. Qed.

End Changes.

(** ** The severity formatter *)

Module Formatter.

(** The table of the program is the table of the specification. *)
Lemma label_level_table (label : string) : label_level label = table_level label.
Proof.
  unfold table_level.
  destruct (decide (label ∈ ["patch"; "hotfix"; "fix"])) as [H3|H3].
  { rewrite !elem_of_cons, elem_of_nil in H3.
    destruct H3 as [-> | [-> | [-> | []]]]; reflexivity. }
  destruct (decide (label ∈ ["minor"; "feature"])) as [H2|H2].
  { rewrite !elem_of_cons, elem_of_nil in H2.
    destruct H2 as [-> | [-> | []]]; reflexivity. }
  destruct (decide (label ∈ ["breaking"; "major"])) as [H1|H1].
  { rewrite !elem_of_cons, elem_of_nil in H1.
    destruct H1 as [-> | [-> | []]]; reflexivity. }
  unfold label_level, LABEL_LEVELS.
  rewrite (not_elem_of_list_to_map_1 _ label); [done|].
  simpl. rewrite !not_elem_of_cons in *.
  intuition auto using not_elem_of_nil.
Qed.

Lemma table_level_range (label : string) : 1 ≤ table_level label ≤ 3.
Proof. unfold table_level, PATCH, MINOR, MAJOR. repeat case_decide; lia. Qed.

Lemma levels_range (prs : list ExtendedPullRequest) (x : Z) :
  x ∈ levels prs → 1 ≤ x ≤ 3.
Proof.
  unfold levels. rewrite elem_of_cons, list_elem_of_join.
  intros [->|(l & Hx & Hl)]; [unfold PATCH; lia|].
  apply list_elem_of_fmap in Hl as (e & -> & _). unfold entry_levels in Hx.
  destruct (labels (details e)) as [[|a ls]|].
  - apply list_elem_of_singleton in Hx as ->. unfold MINOR. lia.
  - apply list_elem_of_fmap in Hx as (label & -> & _). apply table_level_range.
  - apply list_elem_of_singleton in Hx as ->. unfold MINOR. lia.
Qed.

Lemma header_lookup (level : Z) :
  1 ≤ level ≤ 3 → CHANGELOG_LEVEL_MESSAGE !! level = Some (level_header level).
Proof.
  intros H.
  assert (level = 1 ∨ level = 2 ∨ level = 3) as [-> | [-> | ->]] by lia; reflexivity.
Qed.

Lemma is_minimum_singleton (x : Z) : is_minimum x [x].
Proof.
  split; [by apply list_elem_of_singleton|].
  intros y ->%list_elem_of_singleton. lia.
Qed.

Lemma is_minimum_min (m x y : Z) (l : list Z) :
  is_minimum m (Z.min x y :: l) → is_minimum m (x :: y :: l).
Proof.
  intros [Hin Hle]. split.
  - rewrite !elem_of_cons. apply elem_of_cons in Hin as [->|?]; [|auto].
    destruct (Z.min_spec x y) as [[_ ->]|[_ ->]]; auto.
  - intros z Hz. assert (m ≤ Z.min x y) by (apply Hle; left).
    rewrite !elem_of_cons in Hz. destruct Hz as [->|[->|Hz]]; [lia..|].
    apply Hle. by right.
Qed.

Lemma is_minimum_app (a m x : Z) (l1 l2 : list Z) :
  is_minimum a (x :: l1) → is_minimum m (a :: l2) →
  is_minimum m (x :: l1 ++ l2).
Proof.
  intros [Ha Hale] [Hm Hmle]. split.
  - apply elem_of_cons in Hm as [->|Hm].
    + change (a ∈ (x :: l1) ++ l2). apply elem_of_app. by left.
    + change (m ∈ (x :: l1) ++ l2). apply elem_of_app. by right.
  - intros z Hz. assert (m ≤ a) by (apply Hmle; left).
    change (z ∈ (x :: l1) ++ l2) in Hz. apply elem_of_app in Hz as [Hz|Hz].
    + specialize (Hale z Hz). lia.
    + apply Hmle. by right.
Qed.

(** The inner loop over the labels of one entry. *)
Lemma fold_labels_minimum (ls : list string) (level : Z) :
  is_minimum
    (fold_left (λ level label, Z.min level (label_level label)) ls level)
    (level :: (table_level <$> ls)).
Proof.
  revert level. induction ls as [|a ls IH]; intros level; simpl.
  - apply is_minimum_singleton.
  - apply is_minimum_min. rewrite <- label_level_table. apply IH.
Qed.

(** One iteration of the loop: one more line, and the level lowered to the
    minimum with the levels of the entry. *)
Lemma format_changes_step_level cfg owner repo markdown lines level e :
  ∃ line m,
    format_changes_step cfg owner repo markdown (lines, level) e
    = (lines ++ [line], m)
    ∧ is_minimum m (level :: entry_levels e).
Proof.
  unfold format_changes_step, entry_levels.
  destruct (labels (details e)) as [[|a ls]|]; simpl;
    eexists _, _; (split; [reflexivity|]).
  - apply is_minimum_min, is_minimum_singleton.
  - apply (fold_labels_minimum (a :: ls) level).
  - apply is_minimum_min, is_minimum_singleton.
Qed.

Lemma format_changes_fold cfg owner repo markdown prs lines level :
  ∃ lines' m,
    fold_left (format_changes_step cfg owner repo markdown) prs (lines, level)
    = (lines', m)
    ∧ length lines' = (length lines + length prs)%nat
    ∧ is_minimum m (level :: mjoin (entry_levels <$> prs)).
Proof.
  revert lines level. induction prs as [|e prs IH]; intros lines level.
  - exists lines, level. split; [done|].
    split; [simpl; lia|apply is_minimum_singleton].
  - cbn [fold_left].
    destruct (format_changes_step_level cfg owner repo markdown lines level e)
      as (line & m1 & -> & Hm1).
    destruct (IH (lines ++ [line]) m1) as (lines' & m & -> & Hlen & Hm).
    exists lines', m. split; [done|]. split.
    + rewrite length_app in Hlen. cbn [length] in *. lia.
    + by apply (is_minimum_app m1).
Qed.

(** C2. [format_changes] raises nothing; its header names the minimum of
    PATCH, of MINOR for every entry whose label set is empty or absent, and
    of the table level of every label of every entry. The table of the
    program is the table patch, hotfix, fix: 3; minor, feature: 2; breaking,
    major: 1; any other label: 2, with keys compared exactly. An entry
    without label brings the level to MINOR at most, and a label "breaking"
    on any entry makes the header "MAJOR RELEASE". *)
Theorem format_changes_severity (github_config : GitHubConfig)
    (owner repo : string) (prs : list ExtendedPullRequest) (markdown : bool) :
  ∃ level lines,
    format_changes github_config owner repo prs markdown
    = Ok (level_header level :: lines)
    ∧ length lines = length prs
    ∧ is_minimum level (levels prs)
    ∧ (∀ label, label_level label = table_level label)
    ∧ (∀ e, e ∈ prs → default [] (labels (details e)) = [] → level ≤ MINOR)
    ∧ (∀ e ls, e ∈ prs → labels (details e) = Some ls → "breaking" ∈ ls →
         level_header level = "MAJOR RELEASE").
Proof.
  destruct (format_changes_fold github_config owner repo markdown prs [] 3)
    as (lines & level & Hfold & Hlen & Hmin).
  assert (Hrange : 1 ≤ level ≤ 3) by (apply (levels_range prs), Hmin).
  exists level, lines. split; [|split; [done|split; [done|split]]].
  - unfold format_changes. rewrite Hfold. simpl.
    by rewrite (header_lookup level Hrange).
  - apply label_level_table.
  - split.
    + intros e He Hnone. apply Hmin. unfold levels. right.
      apply list_elem_of_join. exists (entry_levels e).
      split; [|by apply list_elem_of_fmap_2].
      unfold entry_levels. destruct (labels (details e)) as [[|a ls]|];
        [by left|done|by left].
    + intros e ls He Hls Hin.
      assert (level ≤ MAJOR); [|unfold MAJOR in *; by replace level with 1 by lia].
      apply Hmin. unfold levels. right.
      apply list_elem_of_join. exists (entry_levels e).
      split; [|by apply list_elem_of_fmap_2].
      unfold entry_levels. rewrite Hls. destruct ls as [|a ls].
      * by apply elem_of_nil in Hin.
      * change MAJOR with (table_level "breaking").
        by apply list_elem_of_fmap_2.
Qed.

Lemma format_changes_severity_witness :
  let prs := [Sample.entry "1" (Some ["patch"]); Sample.entry "2" None;
              Sample.entry "3" (Some ["fix"; "breaking"; "Hotfix"])] in
  ∃ lines,
    format_changes Sample.config "owner" "repo" prs false
    = Ok ("MAJOR RELEASE" :: lines)
    ∧ is_minimum MAJOR (levels prs).
Proof.
  intros prs.
  destruct (format_changes_severity Sample.config "owner" "repo" prs false)
    as (level & lines & Hf & _ & Hmin & _ & _ & Hbreaking).
  assert (Hh : level_header level = "MAJOR RELEASE").
  { apply (Hbreaking (Sample.entry "3" (Some ["fix"; "breaking"; "Hotfix"]))
             ["fix"; "breaking"; "Hotfix"]).
    - right. right. left.
    - reflexivity.
    - right. left. }
  exists lines. rewrite Hh in Hf. split; [exact Hf|].
  assert (level = MAJOR) as <-; [|exact Hmin].
  unfold level_header in Hh. repeat case_decide; [done|discriminate..].
Defined.

End Formatter.

(** ** More on the commit classifier *)

Module ClassifierMore.
Import StrFacts RegexFacts Templates Classifier.

(** What [extract_pr] returns is well formed: the number is a non-empty run
    of decimal digits and the title holds no line feed. *)
Theorem extract_pr_well_formed (msg : string) (p : PullRequest) :
  extract_pr msg = Ok p →
  is_number (number p) = true ∧ one_line (title p) = true.
Proof.
  unfold extract_pr.
  destruct (Regex.re_match MERGE_PR_RE msg) as [g|] eqn:Hm.
  - apply merge_sound in Hm as (n & b & t & rest & Hf & ->).
    intros [= <-]. simpl. destruct Hf as (_ & Hn & _ & Ht & _). done.
  - destruct (Regex.re_match SQUASH_PR_RE msg) as [g|] eqn:Hs; [|done].
    apply squash_sound in Hs as (t & n & tr & [(_ & Ht & Hn) _] & ->).
    intros [= <-]. done.
Qed.

Lemma extract_pr_well_formed_witness :
  extract_pr Sample.squash_message
  = Ok {| number := "1234"; title := "My Title" |}
  ∧ is_number "1234" = true ∧ one_line "My Title" = true.
Proof.
  assert (H : extract_pr Sample.squash_message
              = Ok {| number := "1234"; title := "My Title" |}) by reflexivity.
  split; [exact H|]. exact (extract_pr_well_formed _ _ H).
Defined.

Lemma is_release_merge_spec (msg : string) :
  (truthy (is_release_merge msg) = true ↔ release_template msg)
  ∧ (truthy (is_release_merge msg) = true → truthy (is_pr msg) = true).
Proof.
  assert (Hiff : truthy (is_release_merge msg) = true ↔ release_template msg).
  { unfold is_release_merge. rewrite search_match by done.
    unfold Regex.re_match, MERGE_RELEASE_PR_RE, Regex.body. split.
    - destruct (Regex.run _ msg) as [g|] eqn:H; [intros _|done].
      apply run_lit_Some in H as (s1 & -> & H).
      apply run_rep_Some in H as (n & s2 & g2 & -> & Hn & Hl & H & -> & _).
      apply run_lit_Some in H as (s3 & -> & H).
      apply run_rep_Some in H as (b1 & s4 & g4 & -> & Hb1 & _ & H & -> & _).
      apply run_lit_Some in H as (s5 & -> & H).
      apply run_rep_Some in H as (b2 & s6 & g6 & -> & Hb2 & _ & H & -> & _).
      apply run_lit_Some in H as (s7 & -> & H).
      apply run_rep_last in H as (t & rest & -> & Ht & _ & Hstop & ->).
      exists n, b1, b2, t, rest. split; [by rewrite !append_assoc|].
      split; [by apply is_number_spec|]. split; [|done].
      unfold one_line. by rewrite !all_append, Hb1, Hb2.
    - intros (n & b1 & b2 & t & rest & -> & Hn & Hb & Ht & Hr).
      apply is_number_spec in Hn as [Hd Hl].
      unfold one_line in Hb. rewrite !all_append in Hb.
      apply andb_prop in Hb as [Hb1 [_ Hb2]%andb_prop].
      rewrite !append_assoc. rewrite run_lit.
      match goal with
      | |- truthy (Regex.run (_ :: ?r) (n +:+ ?s)) = true =>
          destruct (Regex.run r s) as [g|] eqn:H
      end.
      + by rewrite (run_rep_first Regex.Digit 1 true _ n _ g).
      + rewrite run_lit in H.
        apply (run_rep_None _ _ _ _ _ b1
                 ("/release/" +:+ b2 +:+ LFLF +:+ t +:+ rest)) in H;
          [|done|done|lia].
        rewrite run_lit in H.
        rewrite (run_rep_first Regex.Dot 0 false _ b2 _ [t]) in H;
          [done|done|done|lia|].
        rewrite run_lit.
        by rewrite (run_rep_first Regex.Dot 0 true [] t rest []); [|done|done|lia|]. }
  split; [exact Hiff|].
  intros (n & b1 & b2 & t & rest & Hf%merge_complete)%Hiff.
  by rewrite is_pr_match, Hf.
Qed.

(** [is_release_merge] accepts exactly the merge commits whose branch name
    holds [/release/]; they are merge commits, so [is_pr] accepts them too. *)
Theorem is_release_merge_iff (msg : string) :
  (truthy (is_release_merge msg) = true ↔ release_template msg)
  ∧ (truthy (is_release_merge msg) = true → truthy (is_pr msg) = true).
Proof. apply is_release_merge_spec. Qed.

Lemma is_release_merge_iff_witness :
  release_template SampleMore.release_message
  ∧ truthy (is_release_merge SampleMore.release_message) = true
  ∧ truthy (is_pr SampleMore.release_message) = true
  ∧ ¬ release_template Sample.merge_message.
Proof.
  destruct (is_release_merge_iff SampleMore.release_message) as [Hiff Hpr].
  assert (Hrel : release_template SampleMore.release_message).
  { exists "12", "org", "1.2", "Release 1.2", "". repeat split; reflexivity. }
  split; [exact Hrel|]. split; [exact (proj2 Hiff Hrel)|].
  split; [exact (Hpr (proj2 Hiff Hrel))|].
  intros Hno.
  apply (proj2 (proj1 (is_release_merge_iff Sample.merge_message))) in Hno.
  discriminate Hno.
Defined.

End ClassifierMore.

(** ** The CHANGELOG line of a body *)

Module ChangelogLine.
Import StrFacts RegexFacts.

Lemma lines_not_nil (s : string) : lines s ≠ [].
Proof.
  destruct s as [|c s]; simpl; [done|].
  destruct (Ascii.eqb c "010"); [done|]. by destruct (lines s).
Qed.

(** The first line ends at the first line feed, and the other lines are the
    lines of what follows it. *)
Lemma lines_split (s l : string) (ls : list string) :
  lines s = l :: ls →
  one_line l = true
  ∧ ((ls = [] ∧ s = l) ∨ (∃ s', s = l +:+ LF +:+ s' ∧ lines s' = ls)).
Proof.
  revert l ls. induction s as [|c s IH]; intros l ls; simpl.
  - intros [= <- <-]. split; [done|]. by left.
  - destruct (Ascii.eqb_spec c "010") as [->|Hc].
    + intros [= <- <-]. split; [done|]. right. by exists s.
    + destruct (lines s) as [|l' ls'] eqn:Hl; [by apply lines_not_nil in Hl|].
      intros [= <- <-]. destruct (IH l' ls' eq_refl) as [Hone Hcases].
      split.
      * unfold one_line in *. simpl. rewrite Hone.
        by destruct (Ascii.eqb_spec c "010").
      * destruct Hcases as [[-> ->]|(s' & -> & Hs')]; [by left|].
        right. by exists s'.
Qed.

Lemma lines_one_line (s : string) : Forall (λ l, one_line l = true) (lines s).
Proof.
  remember (String.length s) as n eqn:Hn. revert s Hn.
  induction (lt_wf n) as [n _ IH]. intros s ->.
  destruct (lines s) as [|l ls] eqn:Hl; [constructor|].
  destruct (lines_split s l ls Hl) as [Hone [[-> _]|(s' & -> & <-)]].
  - by repeat constructor.
  - constructor; [done|]. apply (IH (String.length s')); [|done].
    rewrite !length_append. simpl. lia.
Qed.

(** A literal without line feed is looked for in the first line only. *)
Lemma strip_line (p l rest : string) :
  one_line p = true → line_end rest = true →
  Str.strip p (l +:+ rest) =
    match Str.strip p l with
    | Some r => Some (r +:+ rest)
    | None => None
    end.
Proof.
  intros Hp Hrest. revert l. induction p as [|a p IH]; intros l.
  - by destruct l.
  - unfold one_line in Hp. simpl in Hp. apply andb_prop in Hp as [Ha Hp].
    destruct l as [|b l].
    + rewrite append_nil_l. destruct rest as [|c rest]; [done|]. simpl.
      unfold line_end in Hrest. simpl in Hrest.
      destruct (Ascii.eqb_spec a c) as [->|]; [|done].
      by rewrite Ha in Hrest.
    + rewrite append_cons. simpl. destruct (Ascii.eqb a b); [|done].
      by apply IH.
Qed.

Lemma line_end_rest (s l : string) (ls : list string) :
  lines s = l :: ls →
  ∃ rest, s = l +:+ rest ∧ line_end rest = true
    ∧ (rest = EmptyString → ls = [])
    ∧ (∀ s', rest = LF +:+ s' → lines s' = ls).
Proof.
  intros [Hone [[-> ->]|(s' & -> & Hs')]]%lines_split.
  - exists "". rewrite append_nil_r. repeat split. intros s'. by destruct s'.
  - exists (LF +:+ s'). repeat split; [done|].
    intros s'' H. change (String "010" s' = String "010" s'') in H.
    by injection H as <-.
Qed.

(** The last group of the pattern is the rest of the line. *)
Lemma run_rest_of_line (l rest : string) :
  one_line l = true → line_end rest = true →
  Regex.run [Regex.Rep Regex.Dot 0 true] (l +:+ rest) = Some [l].
Proof.
  intros Hl Hr.
  by rewrite (run_rep_first Regex.Dot 0 true [] l rest []); [|done|done|lia|].
Qed.

Lemma run_opt (c : Regex.cls) (r : list Regex.item) (a : ascii) (s : string) :
  Regex.run (Regex.Opt c :: r) (String a s) =
    if Regex.mem c a then
      match Regex.run r s with
      | Some g => Some g
      | None => Regex.run r (String a s)
      end
    else Regex.run r (String a s).
Proof. reflexivity. Qed.

(** The pattern at the start of a line. *)
Lemma run_changelog (s l : string) (ls : list string) :
  lines s = l :: ls →
  Regex.run (Regex.body CHANGELOG_RE) s =
    match Str.strip "CHANGELOG:" l with
    | Some r => Some [changelog_of r ls]
    | None => None
    end.
Proof.
  intros Hlines.
  destruct (lines_split s l ls Hlines) as [Hone _].
  destruct (line_end_rest s l ls Hlines) as (rest & -> & Hrest & Hnil & Hnext).
  unfold CHANGELOG_RE, Regex.body.
  change (Regex.run (Regex.Lit "CHANGELOG:" :: ?r) ?s)
    with (match Str.strip "CHANGELOG:" s with
          | Some s' => Regex.run r s'
          | None => None
          end).
  rewrite strip_line by done.
  destruct (Str.strip "CHANGELOG:" l) as [r|] eqn:Hstrip; [|done].
  apply strip_Some in Hstrip. subst l.
  unfold one_line in Hone. rewrite all_append in Hone.
  apply andb_prop in Hone as [_ Hr].
  destruct r as [|w r].
  - rewrite append_nil_l. destruct rest as [|c rest'].
    + by rewrite (Hnil eq_refl).
    + unfold line_end in Hrest. simpl in Hrest.
      destruct (Ascii.eqb_spec c "010") as [->|]; [|done].
      specialize (Hnext rest' eq_refl).
      destruct ls as [|next ls']; [by apply lines_not_nil in Hnext|].
      destruct (lines_split rest' next ls' Hnext) as [Hnone _].
      destruct (line_end_rest rest' next ls' Hnext) as (rest2 & -> & Hrest2 & _).
      rewrite run_opt. change (Regex.mem Regex.Space "010") with true.
      cbv iota. by rewrite run_rest_of_line.
  - rewrite append_cons. simpl in Hr. apply andb_prop in Hr as [Hw Hr].
    rewrite run_opt. cbn [changelog_of].
    destruct (Regex.mem Regex.Space w).
    + by rewrite run_rest_of_line.
    + rewrite <- append_cons. rewrite run_rest_of_line; [done| |done].
      unfold one_line. simpl. by rewrite Hw, Hr.
Qed.

Lemma lines_cons_lf (s : string) : lines (String "010" s) = EmptyString :: lines s.
Proof. reflexivity. Qed.

Lemma tail_lines_cons (c : ascii) (s : string) :
  c ≠ "010"%char → tail (lines (String c s)) = tail (lines s).
Proof.
  intros Hc. simpl. destruct (Ascii.eqb_spec c "010"); [done|].
  by destruct (lines s).
Qed.

Lemma scan_unfold (r : Regex.t) (s : string) (first after_lf : bool) :
  Regex.scan r s first after_lf =
    match (if first || (Regex.multiline r && after_lf)
           then Regex.run (Regex.body r) s else None) with
    | Some g => Some g
    | None =>
        match s with
        | EmptyString => None
        | String c s' => Regex.scan r s' false (Ascii.eqb c "010")
        end
    end.
Proof. by destruct s. Qed.

(** [search] looks at the starts of the lines, from the first to the last. *)
Lemma scan_changelog (s : string) :
  (∀ first after_lf, first || after_lf = true →
     Regex.scan CHANGELOG_RE s first after_lf
     = (λ c, [c]) <$> first_changelog (lines s))
  ∧ Regex.scan CHANGELOG_RE s false false
    = (λ c, [c]) <$> first_changelog (tail (lines s)).
Proof.
  induction s as [|c s [IHstart IHmid]].
  - split; [|done]. intros first after_lf H. rewrite scan_unfold.
    change (Regex.multiline CHANGELOG_RE) with true.
    by rewrite andb_true_l, H.
  - assert (Hnext : Regex.scan CHANGELOG_RE s false (Ascii.eqb c "010")
                    = (λ c, [c]) <$> first_changelog (tail (lines (String c s)))).
    { destruct (Ascii.eqb_spec c "010") as [->|Hc].
      - rewrite lines_cons_lf. simpl tail. by apply IHstart.
      - rewrite tail_lines_cons by done. apply IHmid. }
    split.
    + intros first after_lf H. rewrite scan_unfold.
      change (Regex.multiline CHANGELOG_RE) with true.
      rewrite andb_true_l, H.
      destruct (lines (String c s)) as [|l ls] eqn:Hl;
        [by apply lines_not_nil in Hl|].
      rewrite (run_changelog _ l ls Hl). cbn [first_changelog tail] in *.
      destruct (Str.strip "CHANGELOG:" l); [done|]. exact Hnext.
    + rewrite scan_unfold. exact Hnext.
Qed.

Lemma extract_changelog_search (pr_body : string) :
  extract_changelog (Some pr_body) = first_changelog (lines pr_body).
Proof.
  unfold extract_changelog, Regex.search.
  rewrite (proj1 (scan_changelog pr_body) true false eq_refl).
  by destruct (first_changelog (lines pr_body)).
Qed.

(** [extract_changelog] gives the changelog of the first line of the body
    that starts with [CHANGELOG:]: the rest of that line without one leading
    white space, or the next line when nothing follows the colon. *)
Theorem extract_changelog_lines (pr_body : string) :
  extract_changelog (Some pr_body) = first_changelog (lines pr_body).
Proof. apply extract_changelog_search. Qed.

Lemma first_changelog_None (ls : list string) :
  first_changelog ls = None ↔ Forall (λ l, Str.strip "CHANGELOG:" l = None) ls.
Proof.
  induction ls as [|l ls IH]; cbn [first_changelog]; [by split|].
  destruct (Str.strip "CHANGELOG:" l) eqn:Hs.
  - split; [done|]. intros H. inversion H. congruence.
  - rewrite IH. split; [by constructor|]. intros H. by inversion H.
Qed.

Lemma first_changelog_one_line (ls : list string) (c : string) :
  Forall (λ l, one_line l = true) ls →
  first_changelog ls = Some c → one_line c = true.
Proof.
  induction 1 as [|l ls Hl Hls IH]; [done|]. cbn [first_changelog].
  destruct (Str.strip "CHANGELOG:" l) as [r|] eqn:Hs; [|done].
  intros [= <-]. apply strip_Some in Hs. subst l.
  unfold one_line in Hl. rewrite all_append in Hl.
  apply andb_prop in Hl as [_ Hr]. destruct r as [|w r]; cbn [changelog_of].
  - by destruct Hls.
  - simpl in Hr. apply andb_prop in Hr as [Hw Hr].
    destruct (Regex.mem Regex.Space w); [done|].
    unfold one_line. simpl. by rewrite Hw, Hr.
Qed.

(** [extract_changelog] finds nothing exactly when the body is absent or no
    line of it starts with [CHANGELOG:]; what it finds holds no line feed. *)
Theorem extract_changelog_none (pr_body : option string) :
  (extract_changelog pr_body = None ↔
   ∀ body, pr_body = Some body →
     Forall (λ l, Str.strip "CHANGELOG:" l = None) (lines body))
  ∧ (∀ c, extract_changelog pr_body = Some c → one_line c = true).
Proof.
  destruct pr_body as [body|]; [|split; [split; [by intros|done]|done]].
  rewrite extract_changelog_search. split.
  - rewrite first_changelog_None. split; [by intros H b [= <-]|auto].
  - intros c. apply first_changelog_one_line, lines_one_line.
Qed.

Lemma extract_changelog_lines_witness :
  extract_changelog (Some SampleMore.changelog_body)
  = Some "Taken from the next line"
  ∧ lines SampleMore.changelog_body
    = ["Intro"; "CHANGELOG:"; "Taken from the next line"; "more"].
Proof.
  split; [|reflexivity].
  rewrite (extract_changelog_lines SampleMore.changelog_body). reflexivity.
Defined.

Lemma extract_changelog_none_witness :
  extract_changelog (Some "PR body content") = None
  ∧ one_line "Taken from the next line" = true.
Proof.
  split.
  - apply (proj1 (extract_changelog_none (Some "PR body content"))).
    intros body [= <-]. repeat constructor.
  - apply (proj2 (extract_changelog_none (Some SampleMore.changelog_body))).
    reflexivity.
Defined.

End ChangelogLine.

(** ** Resolution of a tag *)

Module TagResolution.

Section Loop.

Context (net : Network) (github_config : GitHubConfig) (tag : string).

Local Notation "'loop'" := (get_commit_for_tag_loop net).
Local Notation "'response'" := (λ url, get_ref net url (headers github_config)).

Lemma loop_S (fuel : nat) (url : string) :
  loop (S fuel) github_config tag url =
    if negb (status_code (response url) =? 200) then
      let* msg := getitem "message" (ref_message (json (response url))) in
      Raise (GitHubError ("Unable to get tag " +:+ tag +:+ ". " +:+ msg))
    else
      let* object := getitem "object" (ref_object (json (response url))) in
      let tag_url :=
        if String.eqb (obj_type object) "tag" then obj_url object else url in
      if negb (String.eqb (obj_type object) "commit")
      then loop fuel github_config tag tag_url
      else Ok (obj_sha object).
Proof. reflexivity. Qed.

(** One iteration on a tag object goes on at the URL the object gives. *)
Lemma loop_tag (fuel : nat) (url : string) (o : GitObject) :
  answers net github_config url o → obj_type o = "tag" →
  loop (S fuel) github_config tag url = loop fuel github_config tag (obj_url o).
Proof. intros [Hs Ho] Ht. rewrite loop_S, Hs, Ho. simpl. by rewrite Ht. Qed.

Lemma loop_commit (fuel : nat) (url : string) (o : GitObject) :
  answers net github_config url o → obj_type o = "commit" →
  loop (S fuel) github_config tag url = Ok (obj_sha o).
Proof. intros [Hs Ho] Ht. rewrite loop_S, Hs, Ho. simpl. by rewrite Ht. Qed.

(** Along a path of [n] tag objects the loop uses [n] iterations. *)
Lemma loop_path (url url' : string) (n fuel : nat) :
  tag_path net github_config url n url' →
  loop (n + fuel) github_config tag url = loop fuel github_config tag url'.
Proof.
  induction 1 as [url|url o n url' Ha Ht _ IH]; [done|].
  change (S n + fuel)%nat with (S (n + fuel)). by rewrite (loop_tag _ url o).
Qed.


(** A value returned is the sha of a commit object at the end of a path of
    tag objects. *)
Lemma loop_Ok (fuel : nat) (url sha : string) :
  loop fuel github_config tag url = Ok sha →
  ∃ n url' o, (n < fuel)%nat ∧ tag_path net github_config url n url'
    ∧ answers net github_config url' o ∧ obj_type o = "commit"
    ∧ obj_sha o = sha.
Proof.
  revert url. induction fuel as [|fuel IH]; intros url; [done|]. rewrite loop_S.
  destruct (Z.eqb_spec (status_code (response url)) 200) as [Hs|Hs]; simpl.
  2:{ by destruct (ref_message _). }
  destruct (ref_object (json (response url))) as [o|] eqn:Ho; [|done]. simpl.
  destruct (String.eqb_spec (obj_type o) "commit") as [Hc|Hc]; simpl.
  - intros [= <-]. exists 0%nat, url, o.
    split; [lia|]. split; [constructor|done].
  - destruct (String.eqb_spec (obj_type o) "tag") as [Ht|Ht].
    + intros (n & url' & o' & Hn & Hp & Ha)%IH.
      exists (S n), url', o'. split; [lia|]. split; [|done].
      by apply (tag_path_next _ _ url o).
    + intros (n & url' & o' & Hn & Hp & Ha)%IH.
      exists n, url', o'. split; [lia|]. by split.
Qed.

(** A reference to an object that is neither a commit nor a tag is asked
    for again and again. *)
Lemma loop_other (fuel : nat) (url : string) (o : GitObject) :
  answers net github_config url o →
  obj_type o ≠ "commit" → obj_type o ≠ "tag" →
  loop fuel github_config tag url = Diverge.
Proof.
  intros [Hs Ho] Hc Ht. induction fuel as [|fuel IH]; [done|].
  rewrite loop_S, Hs, Ho. simpl.
  destruct (String.eqb_spec (obj_type o) "tag"); [done|].
  by destruct (String.eqb_spec (obj_type o) "commit").
Qed.

Lemma loop_path_Diverge (url url' : string) (n : nat) :
  tag_path net github_config url n url' →
  (∀ fuel, loop fuel github_config tag url' = Diverge) →
  ∀ fuel, loop fuel github_config tag url = Diverge.
Proof.
  induction 1 as [url|url o n url' Ha Ht _ IH]; [done|].
  intros Hd [|fuel]; [done|]. rewrite (loop_tag _ url o) by done. by apply IH.
Qed.

End Loop.

(** Following the tag objects. When [n] tag objects lead from the reference
    of the tag to a commit object, [get_commit_for_tag] returns the sha of
    that commit as soon as it is allowed more than [n] iterations; and it
    returns nothing else: a value returned is the sha of a commit object
    reached that way, never the sha of a tag object. *)
Theorem get_commit_for_tag_follows (net : Network) (github_config : GitHubConfig)
    (owner repo tag : string) :
  (∀ n url o fuel,
     tag_path net github_config (tag_ref_url github_config owner repo tag) n url →
     answers net github_config url o → obj_type o = "commit" → (n < fuel)%nat →
     get_commit_for_tag net fuel github_config owner repo tag = Ok (obj_sha o))
  ∧ (∀ fuel sha,
       get_commit_for_tag net fuel github_config owner repo tag = Ok sha →
       ∃ n url o, (n < fuel)%nat
         ∧ tag_path net github_config
             (tag_ref_url github_config owner repo tag) n url
         ∧ answers net github_config url o ∧ obj_type o = "commit"
         ∧ obj_sha o = sha).
Proof.
  split.
  - intros n url o fuel Hp Ha Hc Hlt. unfold get_commit_for_tag.
    replace fuel with (n + S (fuel - S n))%nat by lia.
    fold (tag_ref_url github_config owner repo tag).
    rewrite (loop_path net github_config tag _ url n _ Hp).
    by apply loop_commit.
  - intros fuel sha. apply loop_Ok.
Qed.


(** Errors on the way. When the tag objects lead to a URL that is answered
    with a status other than 200, [get_commit_for_tag] raises [GitHubError]
    with the name of the tag asked for and the message of that answer, or
    [KeyError] when the answer has no message; an answer with status 200
    and no object raises [KeyError]. *)
Theorem get_commit_for_tag_error (net : Network) (github_config : GitHubConfig)
    (owner repo tag : string) (n fuel : nat) (url : string) :
  tag_path net github_config (tag_ref_url github_config owner repo tag) n url →
  (n < fuel)%nat →
  let response := get_ref net url (headers github_config) in
  (status_code response ≠ 200 →
   get_commit_for_tag net fuel github_config owner repo tag =
     match ref_message (json response) with
     | Some msg =>
         Raise (GitHubError ("Unable to get tag " +:+ tag +:+ ". " +:+ msg))
     | None => Raise (KeyError "message")
     end)
  ∧ (status_code response = 200 → ref_object (json response) = None →
     get_commit_for_tag net fuel github_config owner repo tag
     = Raise (KeyError "object")).
Proof.
  intros Hp Hlt response. unfold get_commit_for_tag.
  fold (tag_ref_url github_config owner repo tag).
  replace fuel with (n + S (fuel - S n))%nat by lia.
  rewrite (loop_path net github_config tag _ url n _ Hp), loop_S.
  fold response. split.
  - intros Hs. destruct (Z.eqb_spec (status_code response) 200); [done|].
    simpl. by destruct (ref_message (json response)).
  - intros -> ->. done.
Qed.

(** No outcome. When the tag objects lead to an object that is neither a
    commit nor a tag (a tree, a blob), the same URL is asked for again at
    every iteration: whatever the number of iterations allowed,
    [get_commit_for_tag] neither returns nor raises. *)
Theorem get_commit_for_tag_other_object (net : Network)
    (github_config : GitHubConfig) (owner repo tag : string) (n : nat)
    (url : string) (o : GitObject) :
  tag_path net github_config (tag_ref_url github_config owner repo tag) n url →
  answers net github_config url o →
  obj_type o ≠ "commit" → obj_type o ≠ "tag" →
  ∀ fuel, get_commit_for_tag net fuel github_config owner repo tag = Diverge.
Proof.
  intros Hp Ha Hc Ht fuel. unfold get_commit_for_tag.
  fold (tag_ref_url github_config owner repo tag).
  apply (loop_path_Diverge net github_config tag _ url n Hp).
  intros fuel'. by apply (loop_other net github_config tag fuel' url o).
Qed.

Lemma get_commit_for_tag_follows_witness :
  tag_path SampleMore.tag_remote Sample.config SampleMore.v1_url 1 "http://foo"
  ∧ get_commit_for_tag SampleMore.tag_remote 2 Sample.config "owner" "repo" "v1"
    = Ok "0123456789abcdef".
Proof.
  assert (Hp : tag_path SampleMore.tag_remote Sample.config
                 SampleMore.v1_url 1 "http://foo").
  { apply (tag_path_next _ _ _ SampleMore.v1_object);
      [split; reflexivity|reflexivity|constructor]. }
  split; [exact Hp|].
  apply (proj1 (get_commit_for_tag_follows SampleMore.tag_remote Sample.config
                  "owner" "repo" "v1") 1%nat "http://foo" SampleMore.v1_commit);
    [exact Hp|split; reflexivity|reflexivity|lia].
Defined.


Lemma get_commit_for_tag_error_witness :
  get_commit_for_tag SampleMore.tag_remote 1 Sample.config "owner" "repo" "gone"
  = Raise (GitHubError "Unable to get tag gone. Not Found").
Proof.
  apply (proj1 (get_commit_for_tag_error SampleMore.tag_remote Sample.config
                  "owner" "repo" "gone" 0 1 SampleMore.gone_url
                  (tag_path_here _ _ _) ltac:(lia))).
  discriminate.
Defined.

Lemma get_commit_for_tag_other_object_witness :
  answers SampleMore.tag_remote Sample.config SampleMore.tree_url
    SampleMore.tree_object
  ∧ get_commit_for_tag SampleMore.tag_remote 1000 Sample.config
      "owner" "repo" "tree" = Diverge.
Proof.
  assert (Ha : answers SampleMore.tag_remote Sample.config SampleMore.tree_url
                 SampleMore.tree_object) by (split; reflexivity).
  split; [exact Ha|].
  apply (get_commit_for_tag_other_object SampleMore.tag_remote Sample.config
           "owner" "repo" "tree" 0 SampleMore.tree_url SampleMore.tree_object
           (tag_path_here _ _ _) Ha); discriminate.
Defined.

End TagResolution.

(** ** More on the change resolver *)

Module ResolverMore.
Import Classifier ClassifierMore Dedup Resolver.

Section Walk.

Context (net : Network) (github_config : GitHubConfig) (owner repo : string).
Context (branch : option string).

Local Notation "'step'" := (fetch_changes_step net github_config owner repo).
Local Notation "'walk'" := (resolved net github_config owner repo).
Local Notation "'get_details'" :=
  (λ p, get_pr_details net github_config owner repo (number p)).
Local Notation "'with_details'" :=
  (λ p, let* d := get_pr_details net github_config owner repo (number p) in
        Ok {| pr := p; details := d |}).

(** The loop invariant. Every iteration keeps the set of processed numbers
    equal to the set of numbers of [prs] and keeps [prs] free of repeated
    numbers; it raises nothing, and either leaves [prs] as it is or appends
    one change-request whose number was not processed. *)
Theorem fetch_changes_step_invariant (ignore : bool)
    (st : list PullRequest * gset string) (c : Commit) :
  walk_state_ok st →
  ∃ st', step ignore st c = Ok st' ∧ walk_state_ok st'
    ∧ (st' = st ∨ ∃ p, st'.1 = st.1 ++ [p] ∧ number p ∉ st.2).
Proof.
  destruct st as [prs seen]. intros [Hseen Hnodup]. simpl in Hseen, Hnodup.
  rewrite step_resolve.
  destruct (resolve_commit _ _ _ _ _ c) as [p|];
    [|eexists; split; [done|]; split; [by split|by left]].
  destruct (decide (number p ∈ seen)) as [Hin|Hin];
    [eexists; split; [done|]; split; [by split|by left]|].
  eexists. split; [done|]. split; [|right; by exists p].
  split; simpl.
  - rewrite fmap_app, list_to_set_app_L, <- Hseen. simpl. set_solver.
  - rewrite fmap_app. apply NoDup_app. split; [done|]. split.
    + intros n Hn ->%list_elem_of_singleton. apply Hin. rewrite Hseen.
      by apply elem_of_list_to_set.
    + apply NoDup_singleton.
Qed.

Lemma filter_none {A} (P : A → Prop) `{!∀ x, Decision (P x)} (l : list A) :
  (∀ x, x ∈ l → ¬ P x) → filter P l = [].
Proof.
  induction l as [|a l IH]; intros HP; [done|].
  rewrite filter_cons_False by (apply HP; left). apply IH.
  intros x Hx. apply HP. by right.
Qed.

Lemma for_each_app {S A} (f : S → A → result S) (l1 l2 : list A) (st : S) :
  for_each f (l1 ++ l2) st = bind (for_each f l1 st) (for_each f l2).
Proof.
  revert st. induction l1 as [|x l1 IH]; intros st; [done|]. simpl.
  destruct (f st x); simpl; [apply IH|done|done].
Qed.

(** Walks compose. The state after [commits1 ++ commits2] is the state after
    [commits1] followed by what [commits2] alone gives, less the numbers
    [commits1] has processed; walking the same commits a second time adds
    nothing. *)
Theorem fetch_changes_walk_app (ignore : bool) (commits1 commits2 : list Commit) :
  ∃ prs1 seen1 prs2 seen2,
    for_each (step ignore) commits1 ([], ∅) = Ok (prs1, seen1)
    ∧ for_each (step ignore) commits2 ([], ∅) = Ok (prs2, seen2)
    ∧ for_each (step ignore) (commits1 ++ commits2) ([], ∅)
      = Ok (prs1 ++ filter (λ q, number q ∉ seen1) prs2, seen1 ∪ seen2)
    ∧ for_each (step ignore) (commits1 ++ commits1) ([], ∅) = Ok (prs1, seen1).
Proof.
  eexists _, _, _, _. split; [apply walk_result|]. split; [apply walk_result|].
  split.
  - rewrite for_each_app, walk_result. unfold bind. by rewrite walk_from.
  - rewrite for_each_app, walk_result. unfold bind. rewrite walk_from.
    f_equal. f_equal.
    + rewrite filter_none; [by rewrite app_nil_r|].
      intros q Hq%first_occurrences_elem Hnot. apply Hnot.
      apply elem_of_list_to_set. by apply list_elem_of_fmap_2.
    + set_solver.
Qed.

Lemma first_occurrences_nil (l : list PullRequest) :
  first_occurrences l = [] → l = [].
Proof. by destruct l. Qed.

Lemma first_occurrences_sublist (l : list PullRequest) :
  first_occurrences l `sublist_of` l.
Proof.
  induction l as [|p l IH]; [done|]. simpl. apply sublist_skip.
  by etrans; [apply sublist_filter|].
Qed.

Lemma walk_length (ignore : bool) (commits : list Commit) :
  (length (walk ignore commits) ≤ length commits)%nat.
Proof.
  induction commits as [|c commits IH]; [done|].
  rewrite walk_cons. destruct (resolve_commit _ _ _ _ _ c); simpl; lia.
Qed.

Lemma comprehension_all {A B} (f : A → result B) (l : list A) :
  Forall (λ x, ∃ y, f x = Ok y) l → ∃ ys, comprehension f l = Ok ys.
Proof.
  induction 1 as [|x l [y Hy] _ [ys Hys]]; [by exists []|].
  exists (y :: ys). simpl. by rewrite Hy, Hys.
Qed.


Lemma with_details_Ok (p : PullRequest) :
  (∃ d, get_pr_details net github_config owner repo (number p) = Ok d) →
  ∃ e, (let* d := get_pr_details net github_config owner repo (number p) in
        Ok {| pr := p; details := d |}) = Ok e.
Proof. intros [d ->]. by eexists. Qed.

Lemma fetch_changes_walk_returns (ignore : bool) (commits : list Commit) :
  (∃ result,
     fetch_changes_walk net github_config owner repo branch ignore commits
     = Ok result)
  ↔ Forall (λ p, ∃ d, get_pr_details net github_config owner repo (number p)
                      = Ok d)
      (first_occurrences (walk ignore commits))
    ∧ (walk ignore commits = [] → commits = []).
Proof.
  split.
  - intros [result Hr].
    apply fetch_changes_walk_Ok in Hr as (extended & Hcomp & -> & Hnil).
    apply comprehension_details in Hcomp as [Hpr HF]. split.
    + rewrite <- Hpr. apply Forall_fmap. eapply Forall_impl; [exact HF|].
      intros e He. by exists (details e).
    + intros Hwalk. apply Hnil. rewrite Hwalk in Hpr. by destruct extended.
  - intros [HF Hnil]. unfold fetch_changes_walk. rewrite walk_result. simpl.
    destruct (comprehension_all with_details
                (first_occurrences (walk ignore commits))) as [extended Hext].
    { eapply Forall_impl; [exact HF|]. intros p. apply with_details_Ok. }
    rewrite Hext. simpl.
    destruct (_ && _) eqn:Hcheck; [|by eexists].
    apply andb_prop in Hcheck as [Hlen Hpos].
    apply Nat.eqb_eq, nil_length_inv in Hlen. subst extended.
    apply comprehension_details in Hext as [Hpr _].
    symmetry in Hpr. apply first_occurrences_nil in Hpr.
    rewrite (Hnil Hpr) in Hpos. done.
Qed.


Lemma fetch_changes_walk_sublist (ignore : bool) (commits : list Commit) result :
  fetch_changes_walk net github_config owner repo branch ignore commits
  = Ok result →
  (length result ≤ length commits)%nat
  ∧ reverse (pr <$> result) `sublist_of` walk ignore commits.
Proof.
  intros Hr.
  apply fetch_changes_walk_Ok in Hr as (extended & Hcomp & -> & _).
  apply comprehension_details in Hcomp as [Hpr _].
  assert (Hsub : reverse (pr <$> reverse extended) `sublist_of` walk ignore commits).
  { rewrite fmap_reverse, reverse_involutive, Hpr.
    apply first_occurrences_sublist. }
  split; [|done].
  apply sublist_length in Hsub.
  rewrite length_reverse, length_fmap in Hsub.
  pose proof (walk_length ignore commits). lia.
Qed.

(** Release merges. With [ignore_release_merge] a merge commit of a release
    branch leaves the state of the walk as it is, and every other commit is
    processed as without the flag. *)
Theorem fetch_changes_step_release (st : list PullRequest * gset string)
    (c : Commit) :
  (release_template (message c) → step true st c = Ok st)
  ∧ (¬ release_template (message c) → step true st c = step false st c).
Proof.
  destruct (is_release_merge_spec (message c)) as [Hiff Hpr].
  destruct st as [prs seen]. unfold fetch_changes_step. split.
  - intros Hrel%Hiff. by rewrite (Hpr Hrel), Hrel.
  - intros Hno.
    destruct (decide (truthy (is_release_merge (message c)) = true)) as [Hrel|Hrel].
    + by apply Hiff in Hrel.
    + apply not_true_is_false in Hrel. by rewrite Hrel, andb_false_r.
Qed.

Lemma walk_release (commits : list Commit) :
  Forall (λ c, release_template (message c)) commits → walk true commits = [].
Proof.
  induction 1 as [|c commits Hrel _ IH]; [done|]. rewrite walk_cons.
  unfold resolve_commit at 1.
  destruct (is_release_merge_spec (message c)) as [Hiff Hpr].
  apply Hiff in Hrel. by rewrite (Hpr Hrel), Hrel.
Qed.

Lemma fetch_changes_walk_only_releases (commits : list Commit) :
  commits ≠ [] →
  Forall (λ c, release_template (message c)) commits →
  fetch_changes_walk net github_config owner repo branch true commits
  = Raise (Exception ("Lots of commits and no PRs on branch "
                      +:+ str_of_optional branch)).
Proof.
  intros Hne Hrel. unfold fetch_changes_walk.
  rewrite walk_result, (walk_release commits Hrel). simpl.
  by destruct commits.
Qed.

End Walk.

Section Whole.

Context (net : Network) (fuel : nat) (github_config : GitHubConfig).
Context (owner repo : string) (previous_tag current_tag branch : option string).

Local Notation "'the_commits'" :=
  (fetch_changes_commits net fuel github_config owner repo
     previous_tag current_tag branch).
Local Notation "'the_changes'" :=
  (fetch_changes net fuel github_config owner repo
     previous_tag current_tag branch).
Local Notation "'walk'" := (resolved net github_config owner repo).

(** When [fetch_changes] returns. Once the commits are listed,
    [fetch_changes] returns a list exactly when the details of every
    change-request kept are obtained and either some change-request was
    resolved or there was no commit. *)
Theorem fetch_changes_returns (ignore : bool) (commits : list Commit) :
  the_commits = Ok commits →
  (∃ result, the_changes ignore = Ok result)
  ↔ Forall (λ p, ∃ d, get_pr_details net github_config owner repo (number p)
                      = Ok d)
      (first_occurrences (walk ignore commits))
    ∧ (walk ignore commits = [] → commits = []).
Proof.
  intros Hc. rewrite (Changes.fetch_changes_unfold _ _ _ _ _ _ _ _ _ _ Hc).
  apply fetch_changes_walk_returns.
Qed.


(** Size and order. The list returned has at most one entry per commit, and
    read backwards its change-requests come in the order in which the walk
    resolves them. *)
Theorem fetch_changes_sublist (ignore : bool) (commits : list Commit) result :
  the_commits = Ok commits → the_changes ignore = Ok result →
  (length result ≤ length commits)%nat
  ∧ reverse (pr <$> result) `sublist_of` walk ignore commits.
Proof.
  intros Hc. rewrite (Changes.fetch_changes_unfold _ _ _ _ _ _ _ _ _ _ Hc).
  apply fetch_changes_walk_sublist.
Qed.

(** Nothing but release merges. With [ignore_release_merge], a walk that is
    not empty and holds only merge commits of release branches makes
    [fetch_changes] raise the consistency error. *)
Theorem fetch_changes_only_releases (commits : list Commit) :
  the_commits = Ok commits → commits ≠ [] →
  Forall (λ c, release_template (message c)) commits →
  the_changes true
  = Raise (Exception ("Lots of commits and no PRs on branch "
                      +:+ str_of_optional branch)).
Proof.
  intros Hc. rewrite (Changes.fetch_changes_unfold _ _ _ _ _ _ _ _ _ _ Hc).
  apply fetch_changes_walk_only_releases.
Qed.

End Whole.

Lemma fetch_changes_step_invariant_witness :
  walk_state_ok ([SampleMore.pr100], {["100"]})
  ∧ ∃ st',
      fetch_changes_step Sample.rebase_remote Sample.config "owner" "repo" false
        ([SampleMore.pr100], {["100"]})
        {| sha := "commit3"; message := "Update documentation" |} = Ok st'
      ∧ walk_state_ok st'.
Proof.
  assert (Hok : walk_state_ok ([SampleMore.pr100], {["100"]})).
  { split; [vm_compute; reflexivity|]. repeat constructor. intros H. inversion H. }
  split; [exact Hok|].
  destruct (fetch_changes_step_invariant Sample.rebase_remote Sample.config
              "owner" "repo" false _
              {| sha := "commit3"; message := "Update documentation" |} Hok)
    as (st' & Hstep & Hok' & _).
  exists st'. split; [exact Hstep|exact Hok'].
Defined.

Lemma fetch_changes_returns_witness :
  fetch_changes_commits Sample.rebase_remote 1 Sample.config "owner" "repo"
    None None None = Ok Sample.rebase_commits
  ∧ Forall (λ p, ∃ d, get_pr_details Sample.rebase_remote Sample.config
                        "owner" "repo" (number p) = Ok d)
      (first_occurrences
         (resolved Sample.rebase_remote Sample.config "owner" "repo" false
            Sample.rebase_commits)).
Proof.
  assert (Hc : fetch_changes_commits Sample.rebase_remote 1 Sample.config
                 "owner" "repo" None None None = Ok Sample.rebase_commits)
    by (vm_compute; reflexivity).
  split; [exact Hc|].
  apply (proj1 (fetch_changes_returns Sample.rebase_remote 1 Sample.config
                  "owner" "repo" None None None false _ Hc)).
  exists Sample.rebase_changes. vm_compute. reflexivity.
Defined.


Lemma fetch_changes_sublist_witness :
  fetch_changes Sample.rebase_remote 1 Sample.config "owner" "repo"
    None None None false = Ok Sample.rebase_changes
  ∧ (length Sample.rebase_changes ≤ length Sample.rebase_commits)%nat.
Proof.
  assert (Hc : fetch_changes_commits Sample.rebase_remote 1 Sample.config
                 "owner" "repo" None None None = Ok Sample.rebase_commits)
    by (vm_compute; reflexivity).
  assert (Hr : fetch_changes Sample.rebase_remote 1 Sample.config
                 "owner" "repo" None None None false = Ok Sample.rebase_changes)
    by (vm_compute; reflexivity).
  split; [exact Hr|].
  exact (proj1 (fetch_changes_sublist Sample.rebase_remote 1 Sample.config
                  "owner" "repo" None None None false _ _ Hc Hr)).
Defined.

Lemma fetch_changes_step_release_witness :
  release_template (message SampleMore.release_commit)
  ∧ fetch_changes_step Sample.empty_remote Sample.config "owner" "repo" true
      ([], ∅) SampleMore.release_commit = Ok ([], ∅)
  ∧ fetch_changes_step Sample.empty_remote Sample.config "owner" "repo" true
      ([], ∅) {| sha := "9"; message := Sample.squash_message |}
    = fetch_changes_step Sample.empty_remote Sample.config "owner" "repo" false
        ([], ∅) {| sha := "9"; message := Sample.squash_message |}.
Proof.
  assert (Hrel : release_template (message SampleMore.release_commit)).
  { exists "12", "org", "1.2", "Release 1.2", "". repeat split; reflexivity. }
  split; [exact Hrel|]. split.
  - exact (proj1 (fetch_changes_step_release Sample.empty_remote Sample.config
                    "owner" "repo" ([], ∅) SampleMore.release_commit) Hrel).
  - apply (proj2 (fetch_changes_step_release Sample.empty_remote Sample.config
                    "owner" "repo" ([], ∅)
                    {| sha := "9"; message := Sample.squash_message |})).
    intros (n & b1 & b2 & t & rest & Hf).
    apply Templates.merge_complete in Hf. vm_compute in Hf. discriminate Hf.
Defined.

Lemma fetch_changes_only_releases_witness :
  fetch_changes_commits SampleMore.release_remote 1 Sample.config
    "owner" "repo" None None None = Ok [SampleMore.release_commit]
  ∧ fetch_changes SampleMore.release_remote 1 Sample.config "owner" "repo"
      None None None true
    = Raise (Exception "Lots of commits and no PRs on branch None").
Proof.
  assert (Hc : fetch_changes_commits SampleMore.release_remote 1 Sample.config
                 "owner" "repo" None None None = Ok [SampleMore.release_commit])
    by (vm_compute; reflexivity).
  split; [exact Hc|].
  apply (fetch_changes_only_releases SampleMore.release_remote 1 Sample.config
           "owner" "repo" None None None _ Hc); [discriminate|].
  constructor; [|constructor].
  exists "12", "org", "1.2", "Release 1.2", "". repeat split; reflexivity.
Defined.

End ResolverMore.

(** ** The two endpoints of the range *)

Module Endpoints.

(** Explicit tags. When both tags are given, the list of tags and the
    commits of the branch are not asked for: changing the answers to those
    two requests changes nothing of what [fetch_changes] does. *)
Theorem fetch_changes_explicit_tags (net : Network)
    (tags : string → gmap string string → Response (list TagJson))
    (commits : string → option string → gmap string string → Response CommitsJson)
    (fuel : nat) (github_config : GitHubConfig) (owner repo : string)
    (previous_tag current_tag : string) (branch : option string)
    (ignore_release_merge : bool) :
  fetch_changes (with_tags_and_head net tags commits) fuel github_config
    owner repo (Some previous_tag) (Some current_tag) branch
    ignore_release_merge
  = fetch_changes net fuel github_config owner repo
      (Some previous_tag) (Some current_tag) branch ignore_release_merge.
Proof. reflexivity. Qed.

(** The default previous tag. When no previous tag is given, the list of
    tags is asked for: a status from 400 to 599 raises [HTTPError], an empty
    list raises [IndexError], and otherwise [fetch_changes] does what it does
    when given the name of the first tag of the list. *)
Theorem fetch_changes_last_tag (net : Network) (fuel : nat)
    (github_config : GitHubConfig) (owner repo : string)
    (current_tag branch : option string) (ignore_release_merge : bool) :
  let response :=
    get_tags net
      (Str.join "/" [api_url github_config; "repos"; owner; repo; "tags"])
      (headers github_config) in
  let changes previous_tag :=
    fetch_changes net fuel github_config owner repo previous_tag current_tag
      branch ignore_release_merge in
  (400 ≤ status_code response < 600 →
   changes None = Raise (HTTPError (status_code response)))
  ∧ (¬ 400 ≤ status_code response < 600 → json response = [] →
     changes None = Raise IndexError)
  ∧ (∀ t ts, ¬ 400 ≤ status_code response < 600 → json response = t :: ts →
       changes None = changes (Some (tag_name t))).
Proof.
  intros response changes. unfold changes, fetch_changes, fetch_changes_commits.
  unfold get_last_tag, raise_for_status. fold response.
  destruct (Z.leb_spec 400 (status_code response));
    destruct (Z.ltb_spec (status_code response) 600); simpl;
    (split; [intros ?|split; [intros ? Hj|intros t ts ? Hj]]);
    try lia; try done; by rewrite Hj.
Qed.

Lemma fetch_changes_last_tag_witness :
  fetch_changes Sample.rebase_remote 1 Sample.config "owner" "repo"
    None None None false
  = fetch_changes Sample.rebase_remote 1 Sample.config "owner" "repo"
      (Some "0.1.0") None None false.
Proof.
  apply (proj2 (proj2 (fetch_changes_last_tag Sample.rebase_remote 1
                         Sample.config "owner" "repo" None None false))
           {| tag_name := "0.1.0" |} []); [|reflexivity].
  change (¬ 400 ≤ 200 < 600). lia.
Defined.

End Endpoints.

(** ** More on the severity formatter *)

Module FormatterMore.
Import Formatter.

Lemma format_changes_step_line cfg owner repo markdown st e :
  (format_changes_step cfg owner repo markdown st e).1
  = st.1 ++ [entry_line cfg owner repo markdown e].
Proof.
  destruct st as [lines level]. unfold format_changes_step, entry_line. simpl.
  destruct (extract_changelog _); by destruct markdown.
Qed.

Lemma format_changes_fold_lines cfg owner repo markdown prs st :
  (fold_left (format_changes_step cfg owner repo markdown) prs st).1
  = st.1 ++ (entry_line cfg owner repo markdown <$> prs).
Proof.
  revert st. induction prs as [|e prs IH]; intros st.
  - simpl. by rewrite app_nil_r.
  - cbn [fold_left]. rewrite IH, format_changes_step_line, <- app_assoc. done.
Qed.

(** The header and the lines, with the level the header names. *)
Lemma format_changes_Ok cfg owner repo prs markdown :
  ∃ level,
    is_minimum level (levels prs)
    ∧ format_changes cfg owner repo prs markdown
      = Ok (level_header level :: (entry_line cfg owner repo markdown <$> prs)).
Proof.
  destruct (format_changes_fold cfg owner repo markdown prs [] 3)
    as (lines & level & Hfold & _ & Hmin).
  exists level. split; [done|].
  pose proof (format_changes_fold_lines cfg owner repo markdown prs ([], 3)) as Hl.
  rewrite Hfold in Hl. simpl in Hl. subst lines.
  unfold format_changes. rewrite Hfold. simpl.
  by rewrite (header_lookup level (levels_range prs level (proj1 Hmin))).
Qed.

Lemma is_minimum_unique (m m' : Z) (l l' : list Z) :
  is_minimum m l → is_minimum m' l' → l ≡ₚ l' → m = m'.
Proof.
  intros [Hin Hle] [Hin' Hle'] Hp.
  assert (m ≤ m') by (apply Hle; by rewrite Hp).
  assert (m' ≤ m) by (apply Hle'; by rewrite <- Hp).
  lia.
Qed.

(** The lines. [format_changes] returns the header followed by one line per
    entry, in the order of the entries: a dash, the changelog of the body
    (the title when the body has none), and the number, which in markdown
    is a link to the change-request. *)
Theorem format_changes_lines (github_config : GitHubConfig)
    (owner repo : string) (prs : list ExtendedPullRequest) (markdown : bool) :
  ∃ header,
    format_changes github_config owner repo prs markdown
    = Ok (header :: (entry_line github_config owner repo markdown <$> prs))
    ∧ ∀ (i : nat) e, prs !! i = Some e →
        ∃ lines,
          format_changes github_config owner repo prs markdown = Ok lines
          ∧ lines !! S i = Some (entry_line github_config owner repo markdown e).
Proof.
  destruct (format_changes_Ok github_config owner repo prs markdown)
    as (level & _ & Hf).
  exists (level_header level). split; [done|].
  intros i e Hi. eexists. split; [exact Hf|].
  simpl. by rewrite list_lookup_fmap, Hi.
Qed.

(** The header depends on the labels only: entries in another order, in
    particular in reverse, with or without markdown, give the same header. *)
Theorem format_changes_header_permutation (github_config : GitHubConfig)
    (owner repo : string) (prs prs' : list ExtendedPullRequest)
    (markdown markdown' : bool) :
  prs ≡ₚ prs' →
  ∃ header lines lines',
    format_changes github_config owner repo prs markdown = Ok (header :: lines)
    ∧ format_changes github_config owner repo prs' markdown'
      = Ok (header :: lines').
Proof.
  intros Hp.
  destruct (format_changes_Ok github_config owner repo prs markdown)
    as (level & Hmin & Hf).
  destruct (format_changes_Ok github_config owner repo prs' markdown')
    as (level' & Hmin' & Hf').
  assert (level = level') as <-.
  { apply (is_minimum_unique _ _ _ _ Hmin Hmin'). unfold levels. by rewrite Hp. }
  eauto.
Qed.

Lemma table_level_major (label : string) :
  table_level label = MAJOR ↔ major_label label.
Proof.
  split.
  - unfold table_level, major_label, PATCH, MINOR, MAJOR.
    repeat case_decide; intros Hl; try discriminate Hl.
    match goal with H : label ∈ _ |- _ =>
      rewrite !elem_of_cons, elem_of_nil in H; tauto end.
  - intros [-> | ->]; reflexivity.
Qed.

Lemma table_level_patch (label : string) :
  table_level label = PATCH ↔ patch_label label.
Proof.
  split.
  - unfold table_level, patch_label, PATCH, MINOR, MAJOR.
    repeat case_decide; intros Hl; try discriminate Hl.
    match goal with H : label ∈ _ |- _ =>
      rewrite !elem_of_cons, elem_of_nil in H; tauto end.
  - intros [-> | [-> | ->]]; reflexivity.
Qed.

Lemma elem_of_levels (prs : list ExtendedPullRequest) (x : Z) :
  x ∈ levels prs ↔
  x = PATCH ∨ ∃ e, e ∈ prs ∧ x ∈ entry_levels e.
Proof.
  unfold levels. rewrite elem_of_cons, list_elem_of_join.
  split; intros [?|H]; [by left| |by left|]; right.
  - destruct H as (l & Hx & (e & -> & He)%list_elem_of_fmap). eauto.
  - destruct H as (e & He & Hx). exists (entry_levels e).
    split; [done|]. by apply list_elem_of_fmap_2.
Qed.

(** Which header. The header is "MAJOR RELEASE" exactly when some entry
    has the label breaking or major; it is "PATCH RELEASE" exactly when
    every entry has a label and all the labels are among patch, hotfix and
    fix; it is "MINOR RELEASE" otherwise. *)
Theorem format_changes_header (github_config : GitHubConfig)
    (owner repo : string) (prs : list ExtendedPullRequest) (markdown : bool) :
  ∃ header lines,
    format_changes github_config owner repo prs markdown = Ok (header :: lines)
    ∧ (header = "MAJOR RELEASE" ↔
       ∃ e ls label, e ∈ prs ∧ labels (details e) = Some ls
         ∧ label ∈ ls ∧ major_label label)
    ∧ (header = "PATCH RELEASE" ↔
       ∀ e, e ∈ prs →
         ∃ ls, labels (details e) = Some ls ∧ ls ≠ []
           ∧ ∀ label, label ∈ ls → patch_label label)
    ∧ (header = "MAJOR RELEASE" ∨ header = "MINOR RELEASE"
       ∨ header = "PATCH RELEASE").
Proof.
  destruct (format_changes_Ok github_config owner repo prs markdown)
    as (level & [Hin Hle] & Hf).
  pose proof (levels_range prs level Hin) as Hrange.
  exists (level_header level),
    (entry_line github_config owner repo markdown <$> prs).
  split; [exact Hf|].
  assert (Hmajor : level_header level = "MAJOR RELEASE" ↔ level = MAJOR).
  { unfold level_header, MAJOR, MINOR in *. repeat case_decide; split; (done || lia). }
  assert (Hpatch : level_header level = "PATCH RELEASE" ↔ level = PATCH).
  { unfold level_header, MAJOR, MINOR, PATCH in *.
    repeat case_decide; split; (done || lia). }
  split; [|split].
  - rewrite Hmajor. split.
    + intros ->. apply elem_of_levels in Hin as [?|(e & He & Hx)]; [done|].
      unfold entry_levels in Hx.
      destruct (labels (details e)) as [[|a ls]|] eqn:Hl;
        [by apply list_elem_of_singleton in Hx| |by apply list_elem_of_singleton in Hx].
      apply list_elem_of_fmap in Hx as (label & Hlabel & Hin').
      exists e, (a :: ls), label. repeat split; [done..|].
      by apply table_level_major.
    + intros (e & ls & label & He & Hl & Hin' & Hm%table_level_major).
      assert (level ≤ MAJOR); [|unfold MAJOR in *; lia].
      apply Hle, elem_of_levels. right. exists e. split; [done|].
      unfold entry_levels. rewrite Hl. destruct ls as [|a ls].
      * by apply elem_of_nil in Hin'.
      * rewrite <- Hm. by apply list_elem_of_fmap_2.
  - rewrite Hpatch. split.
    + intros -> e He.
      assert (Hall : ∀ x, x ∈ entry_levels e → x = PATCH).
      { intros x Hx. assert (PATCH ≤ x).
        { apply Hle, elem_of_levels. right. eauto. }
        assert (x ∈ levels prs) as Hr%levels_range.
        { apply elem_of_levels. right. eauto. }
        unfold PATCH in *. lia. }
      unfold entry_levels in Hall.
      destruct (labels (details e)) as [[|a ls]|];
        [by specialize (Hall MINOR ltac:(left))|
        |by specialize (Hall MINOR ltac:(left))].
      exists (a :: ls). repeat split; [done|].
      intros label Hlabel. apply table_level_patch, Hall.
      by apply list_elem_of_fmap_2.
    + intros Hall.
      assert (PATCH ≤ level); [|unfold PATCH in *; lia].
      apply elem_of_levels in Hin as [->|(e & He & Hx)]; [done|].
      destruct (Hall e He) as (ls & Hl & Hne & Hp).
      unfold entry_levels in Hx. rewrite Hl in Hx.
      destruct ls as [|a ls]; [done|].
      apply list_elem_of_fmap in Hx as (label & -> & Hin').
      apply Hp, table_level_patch in Hin'. by rewrite Hin'.
  - unfold level_header. repeat case_decide; auto.
Qed.

Lemma format_changes_lines_witness :
  ∃ lines,
    format_changes Sample.config "owner" "repo"
      [SampleMore.patch_entry; SampleMore.breaking_entry] true = Ok lines
    ∧ lines !! 2%nat
      = Some "- Change 2 [#2](https://github.com/owner/repo/pull/2)".
Proof.
  destruct (format_changes_lines Sample.config "owner" "repo"
              [SampleMore.patch_entry; SampleMore.breaking_entry] true)
    as (header & _ & Hline).
  exact (Hline 1%nat SampleMore.breaking_entry eq_refl).
Defined.

Lemma format_changes_header_permutation_witness :
  [SampleMore.patch_entry; SampleMore.breaking_entry]
  ≡ₚ [SampleMore.breaking_entry; SampleMore.patch_entry]
  ∧ ∃ header lines lines',
      format_changes Sample.config "owner" "repo"
        [SampleMore.patch_entry; SampleMore.breaking_entry] false
      = Ok (header :: lines)
      ∧ format_changes Sample.config "owner" "repo"
          [SampleMore.breaking_entry; SampleMore.patch_entry] true
        = Ok (header :: lines').
Proof.
  assert (Hp : [SampleMore.patch_entry; SampleMore.breaking_entry]
               ≡ₚ [SampleMore.breaking_entry; SampleMore.patch_entry])
    by apply perm_swap.
  split; [exact Hp|].
  exact (format_changes_header_permutation Sample.config "owner" "repo"
           _ _ false true Hp).
Defined.

Lemma format_changes_header_witness :
  ∃ lines,
    format_changes Sample.config "owner" "repo" [SampleMore.patch_entry] false
    = Ok ("PATCH RELEASE" :: lines).
Proof.
  destruct (format_changes_header Sample.config "owner" "repo"
              [SampleMore.patch_entry] false)
    as (header & lines & Hf & _ & Hpatch & _).
  exists lines. rewrite Hf. f_equal. f_equal. apply Hpatch.
  intros e He. apply list_elem_of_singleton in He. subst e.
  exists ["patch"; "fix"]. split; [reflexivity|]. split; [discriminate|].
  intros label Hl. apply elem_of_cons in Hl as [->|Hl]; [by left|].
  apply list_elem_of_singleton in Hl. subst label. right. by right.
Defined.

End FormatterMore.

(** ** The generated text *)

Module Output.
Import StrFacts ChangelogLine FormatterMore.

Lemma join_cons_cons (sep x y : string) (l : list string) :
  Str.join sep (x :: y :: l) = x +:+ sep +:+ Str.join sep (y :: l).
Proof. reflexivity. Qed.

Lemma lines_one (l : string) : one_line l = true → lines l = [l].
Proof.
  induction l as [|c l IH]; [done|]. intros H.
  unfold one_line in H. simpl in H. apply andb_prop in H as [Hc Hl].
  cbn [lines]. rewrite (IH Hl). by destruct (Ascii.eqb c "010").
Qed.

Lemma lines_append (l s : string) :
  one_line l = true → lines (l +:+ LF +:+ s) = l :: lines s.
Proof.
  induction l as [|c l IH]; [done|]. intros H.
  unfold one_line in H. simpl in H. apply andb_prop in H as [Hc Hl].
  rewrite append_cons. cbn [lines]. rewrite (IH Hl).
  by destruct (Ascii.eqb c "010").
Qed.

(** Splitting at the line feeds undoes joining with line feeds. *)
Lemma lines_join (ls : list string) :
  ls ≠ [] → Forall (λ l, one_line l = true) ls → lines (Str.join LF ls) = ls.
Proof.
  intros Hne HF. induction HF as [|x ls Hx HF IH]; [done|].
  destruct ls as [|y ls]; [by apply lines_one|].
  rewrite join_cons_cons, lines_append by done. f_equal. by apply IH.
Qed.

Lemma one_line_join (sep : string) (ls : list string) :
  one_line sep = true → Forall (λ l, one_line l = true) ls →
  one_line (Str.join sep ls) = true.
Proof.
  intros Hsep HF. induction HF as [|x ls Hx HF IH]; [done|].
  destruct ls as [|y ls]; [done|].
  rewrite join_cons_cons. unfold one_line in *.
  by rewrite !all_append, Hx, Hsep, IH.
Qed.

Lemma level_header_one_line (level : Z) : one_line (level_header level) = true.
Proof. unfold level_header. by repeat case_decide. Qed.

Section Generate.

Context (net : Network) (fuel : nat) (owner repo : string).
Context (previous_tag current_tag : option string) (markdown : bool).
Context (branch : option string) (github_base_url github_api_url : string).
Context (github_token : option string) (ignore_release_merge : bool).

Local Notation "'config'" :=
  (get_github_config net github_base_url github_api_url github_token).
Local Notation "'changes'" :=
  (fetch_changes net fuel config owner repo previous_tag current_tag branch
     ignore_release_merge).
Local Notation "'text'" :=
  (λ single_line,
     generate_changelog net fuel owner repo previous_tag current_tag markdown
       single_line branch github_base_url github_api_url github_token
       ignore_release_merge).

Lemma generate_changelog_Ok (single_line : bool) prs :
  changes = Ok prs →
  ∃ level,
    text single_line
    = Ok (Str.join (if single_line then "\n" else LF)
            (level_header level
             :: (entry_line config owner repo markdown <$> prs))).
Proof.
  intros Hc. unfold generate_changelog. rewrite Hc. simpl.
  destruct (format_changes_Ok config owner repo prs markdown)
    as (level & _ & ->).
  by exists level.
Qed.

(** How [generate_changelog] composes. It raises exactly what
    [fetch_changes] raises, with the configuration built from its arguments,
    and nothing else: formatting never fails. When [fetch_changes] returns,
    the text is the header and the lines of [format_changes], joined by a
    line feed, or by a backslash and the letter n when a single line is
    asked for. *)
Theorem generate_changelog_composes (single_line : bool) :
  match changes with
  | Ok prs =>
      ∃ lines,
        format_changes config owner repo prs markdown = Ok lines
        ∧ text single_line
          = Ok (Str.join (if single_line then "\n" else LF) lines)
  | Raise e => text single_line = Raise e
  | Diverge => text single_line = Diverge
  end.
Proof.
  unfold generate_changelog.
  destruct changes as [prs|e|]; simpl; [|done..].
  destruct (format_changes_Ok config owner repo prs markdown) as (level & _ & Hf).
  eexists. split; [exact Hf|]. by rewrite Hf.
Qed.

(** The text splits back into its lines. When no line of an entry holds a
    line feed, the lines of the text are the header and one line per entry,
    in the order of the entries; and the text asked for as a single line
    holds no line feed. *)
Theorem generate_changelog_round_trip prs :
  changes = Ok prs →
  Forall (λ e, one_line (entry_line config owner repo markdown e) = true) prs →
  (∃ t header,
     text false = Ok t
     ∧ lines t = header :: (entry_line config owner repo markdown <$> prs)
     ∧ length (lines t) = S (length prs))
  ∧ (∃ t, text true = Ok t ∧ one_line t = true).
Proof.
  intros Hc Hone.
  assert (Hall : ∀ level,
            Forall (λ l, one_line l = true)
              (level_header level
               :: (entry_line config owner repo markdown <$> prs))).
  { intros level. constructor; [apply level_header_one_line|].
    by apply Forall_fmap. }
  split.
  - destruct (generate_changelog_Ok false prs Hc) as [level Ht].
    eexists _, (level_header level). split; [exact Ht|].
    rewrite lines_join by (done || apply Hall). split; [done|].
    simpl. by rewrite length_fmap.
  - destruct (generate_changelog_Ok true prs Hc) as [level Ht].
    eexists. split; [exact Ht|]. by apply one_line_join.
Qed.

End Generate.

Lemma generate_changelog_round_trip_witness :
  ∃ t,
    Sample.changelog_text (Sample.round_trip Sample.newest_first_walk) = Ok t
    ∧ length (lines t) = 5%nat.
Proof.
  destruct (generate_changelog_round_trip
              (Sample.round_trip Sample.newest_first_walk) 1
              "someone" "one-repo" None None false None
              PUBLIC_GITHUB_URL PUBLIC_GITHUB_API_URL None false
              (reverse
                 [{| pr := {| number := "10"; title := "My Title" |};
                     details :=
                       {| body := Some ("My Title #10" +:+ LFLF
                                        +:+ "CHANGELOG: Specific Changelog");
                          labels := Some [] |} |};
                  {| pr := {| number := "9"; title := "My Title" |};
                     details := Sample.plain_details |};
                  {| pr := {| number := "6";
                              title := "Some title addresses bug" |};
                     details := Sample.plain_details |};
                  {| pr := {| number := "5"; title := "My Title" |};
                     details := Sample.plain_details |}]))
    as [(t & header & Ht & _ & Hlen) _].
  - vm_compute. reflexivity.
  - repeat constructor.
  - exists t. split; [exact Ht|exact Hlen].
Defined.

End Output.

(** ** Numbers of change-requests found by the lookup *)

Module Numbers.

Lemma string_of_uint_digits (d : Decimal.uint) :
  Str.all (Regex.mem Regex.Digit) (NilEmpty.string_of_uint d) = true.
Proof. induction d; simpl; try done; by rewrite IHd. Qed.

Lemma of_int_inj (a b : Z) : Str.of_int a = Str.of_int b → a = b.
Proof.
  unfold Str.of_int. intros H. apply DecimalZ.to_int_inj.
  assert (Hnil : ∀ z, Z.to_int z ≠ Decimal.Pos Decimal.Nil
                      ∧ Z.to_int z ≠ Decimal.Neg Decimal.Nil).
  { intros [|p|p]; simpl; split; try discriminate;
      intros Hp; apply (DecimalPos.Unsigned.to_uint_nonnil p); congruence. }
  destruct (Hnil a) as [Ha1 Ha2]. destruct (Hnil b) as [Hb1 Hb2].
  pose proof (NilZero.isi _ Ha1 Ha2) as Ia.
  pose proof (NilZero.isi _ Hb1 Hb2) as Ib.
  rewrite H in Ia. congruence.
Qed.

Lemma of_int_number (n : Z) : 0 ≤ n → is_number (Str.of_int n) = true.
Proof.
  intros Hn. unfold Str.of_int. destruct n as [|p|p]; [done| |lia].
  simpl. unfold NilZero.string_of_uint.
  pose proof (DecimalPos.Unsigned.to_uint_nonnil p) as Hnil.
  pose proof (string_of_uint_digits (Pos.to_uint p)) as Hd.
  destruct (Pos.to_uint p) eqn:Hp; [done|..];
    unfold is_number; rewrite Hd; done.
Qed.

(** The number of a change-request found by the lookup is the decimal
    writing of the number the remote gives: two lookups yield the same
    number exactly when the remote gives the same integer, and a number
    that is not negative is written with digits only, like a number taken
    from a commit message. *)
Theorem get_pr_for_commit_number (net : Network) (github_config : GitHubConfig)
    (owner repo sha1 sha2 : string) (r1 r2 : PullRequest) :
  get_pr_for_commit net github_config owner repo sha1 = Ok (Some r1) →
  get_pr_for_commit net github_config owner repo sha2 = Ok (Some r2) →
  let pulls sha :=
    json (get_commit_pulls net
            (Str.join "/" [api_url github_config; "repos"; owner; repo;
                           "commits"; sha; "pulls"])
            (headers github_config)) in
  ∃ p1 p2,
    head (pulls sha1) = Some p1 ∧ head (pulls sha2) = Some p2
    ∧ title r1 = pull_title p1
    ∧ (number r1 = number r2 ↔ pull_number p1 = pull_number p2)
    ∧ (0 ≤ pull_number p1 → is_number (number r1) = true).
Proof.
  intros H1 H2 pulls. unfold get_pr_for_commit in H1, H2.
  destruct (negb _) in H1; [done|]. destruct (negb _) in H2; [done|].
  change (json (get_commit_pulls net _ _)) with (pulls sha1) in H1.
  change (json (get_commit_pulls net _ _)) with (pulls sha2) in H2.
  destruct (pulls sha1) as [|p1 ps1]; [done|].
  destruct (pulls sha2) as [|p2 ps2]; [done|].
  injection H1 as <-. injection H2 as <-.
  exists p1, p2. simpl. repeat split; [|congruence|apply of_int_number].
  apply of_int_inj.
Qed.

Lemma get_pr_for_commit_number_witness :
  get_pr_for_commit Sample.rebase_remote Sample.config "owner" "repo" "commit1"
  = Ok (Some SampleMore.pr100)
  ∧ get_pr_for_commit Sample.rebase_remote Sample.config "owner" "repo" "commit3"
    = Ok (Some SampleMore.pr101)
  ∧ is_number (number SampleMore.pr100) = true.
Proof.
  assert (H1 : get_pr_for_commit Sample.rebase_remote Sample.config
                 "owner" "repo" "commit1" = Ok (Some SampleMore.pr100))
    by reflexivity.
  assert (H3 : get_pr_for_commit Sample.rebase_remote Sample.config
                 "owner" "repo" "commit3" = Ok (Some SampleMore.pr101))
    by reflexivity.
  split; [exact H1|]. split; [exact H3|].
  destruct (get_pr_for_commit_number _ _ _ _ _ _ _ _ H1 H3)
    as (p1 & p2 & Hp1 & _ & _ & _ & Hnum).
  apply Hnum. vm_compute in Hp1. injection Hp1 as <-. discriminate.
Defined.

End Numbers.

(** ** The repository's tests, replayed on the embedding *)

Module Tests.

Example test_is_pr_merge : truthy (is_pr Sample.merge_message) = true.
Proof. reflexivity. Qed.

Example test_is_pr_squash : truthy (is_pr Sample.squash_message) = true.
Proof. reflexivity. Qed.

Example test_is_pr_not_pr : truthy (is_pr Sample.plain_message) = false.
Proof. reflexivity. Qed.

Example test_is_pr_no_number :
  truthy (is_pr ("Merge pull request from some/branch" +:+ LFLF +:+ "My Title"))
  = false.
Proof. reflexivity. Qed.

Example test_is_pr_potential_squash :
  truthy (is_pr "Some title addresses bug (#345)") = true.
Proof. reflexivity. Qed.

Example test_extract_pr_merge :
  extract_pr Sample.merge_message = Ok {| number := "1234"; title := "My Title" |}.
Proof. reflexivity. Qed.

Example test_extract_pr_squash :
  extract_pr Sample.squash_message = Ok {| number := "1234"; title := "My Title" |}.
Proof. reflexivity. Qed.

Example test_extract_pr_not_pr :
  extract_pr Sample.plain_message
  = Raise (Exception "Commit isn't a PR merge, I made some changes!").
Proof. reflexivity. Qed.

Example test_extract_pr_potential_squash :
  extract_pr "Some title addresses bug (#345)"
  = Ok {| number := "345"; title := "Some title addresses bug" |}.
Proof. reflexivity. Qed.

(** The squash pattern takes the last parenthesized number of the line. *)
Example extract_pr_last_number :
  extract_pr "A (#1) B (#2) C" = Ok {| number := "2"; title := "A (#1) B" |}.
Proof. reflexivity. Qed.

Example extract_changelog_line :
  extract_changelog
    (Some ("My Title #10" +:+ LFLF +:+ "CHANGELOG: Specific Changelog"))
  = Some "Specific Changelog".
Proof. reflexivity. Qed.

Example extract_changelog_absent :
  extract_changelog None = None
  ∧ extract_changelog (Some "PR body content") = None
  ∧ extract_changelog (Some "see CHANGELOG: not at a line start") = None.
Proof. repeat split. Qed.

Example label_level_cases :
  label_level "patch" = 3 ∧ label_level "hotfix" = 3 ∧ label_level "fix" = 3
  ∧ label_level "minor" = 2 ∧ label_level "feature" = 2
  ∧ label_level "breaking" = 1 ∧ label_level "major" = 1
  ∧ label_level "BREAKING" = 2 ∧ label_level "documentation" = 2.
Proof. repeat split. Qed.

Example test_format_changes_uses_correct_base_url :
  format_changes
    {| base_url := "https://github.company.com";
       api_url := "https://github.company.com/api/v3"; headers := ∅ |}
    "owner" "a-repo"
    [{| pr := {| number := "1"; title := "first" |};
        details := {| body := None; labels := None |} |};
     {| pr := {| number := "2"; title := "second" |};
        details := {| body := None; labels := None |} |}]
    true
  = Ok ["MINOR RELEASE";
        "- first [#1](https://github.company.com/owner/a-repo/pull/1)";
        "- second [#2](https://github.company.com/owner/a-repo/pull/2)"].
Proof. vm_compute. reflexivity. Qed.

Example test_generate_changelog :
  Sample.changelog_text (Sample.round_trip Sample.tested_walk)
  = Ok (Str.join LF Sample.round_trip_lines).
Proof. vm_compute. reflexivity. Qed.

Example test_get_pr_for_commit :
  get_pr_for_commit Sample.rebase_remote Sample.config "owner" "repo" "commit1"
  = Ok (Some {| number := "100"; title := "Fix authentication bug" |}).
Proof. reflexivity. Qed.

Example test_get_pr_for_commit_no_pr :
  get_pr_for_commit Sample.orphan_remote Sample.config "owner" "repo" "abc123"
  = Ok None.
Proof. reflexivity. Qed.

Example test_fetch_changes_with_rebase_merge :
  fetch_changes Sample.rebase_remote 1 Sample.config "owner" "repo"
    None None None false = Ok Sample.rebase_changes.
Proof. vm_compute. reflexivity. Qed.

End Tests.
